(** * Earnings tracker: the ledger arithmetic and the record store

    A shallow embedding of [lib/calculations.ts] and [lib/storage.ts]
    (local-storage backend), and the properties of the running
    [remaining] balance that the recalculation code maintains.

    Conventions of the embedding:
    - a JavaScript [number] is a rational [Q]; the tests [x === 0] and
      [x < 0] become [Qeq_bool] and its strict counterpart, so [0#2]
      behaves as zero.  IEEE rounding, [NaN] and the infinities are not
      represented;
    - a date is the [YYYY-MM-DD] string the code stores.  Both
      [localeCompare] and the operators [<], [<=] on such strings are
      read as the lexicographic [String.compare];
    - [Array.prototype.sort] is stable; it is embedded as a stable
      insertion sort parameterised by the comparator;
    - [localStorage] holds two items.  Each is absent, present but
      rejected by [JSON.parse], or present with a well-typed value;
    - [generateId()], [new Date()] are inputs of the operations. *)

From Stdlib Require Import List String Ascii QArith Bool Permutation Lia.
From Stdlib Require Import OrdersEx RelationClasses DecimalString Lqa.
Import ListNotations.

Set Implicit Arguments.

(* ================================================================== *)
(** ** Array helpers used by the storage layer *)

Module JsArray.

Section Sorting.
Variable A : Type.
Variable cmp : A -> A -> comparison.

(** [insert_by x l] puts [x] in front of the first element that does
    not have to come before it; elements comparing [Eq] to [x] stay
    behind it, which is what makes [sort_by] stable. *)
Fixpoint insert_by (x : A) (l : list A) : list A :=
  match l with
  | [] => [x]
  | y :: t =>
      match cmp x y with
      | Gt => y :: insert_by x t
      | _ => x :: y :: t
      end
  end.

(** [arr.sort(cmp)] *)
Definition sort_by (l : list A) : list A :=
  fold_right insert_by [] l.
End Sorting.

Section Lookup.
Variable A : Type.
Variable p : A -> bool.

(** [arr.findIndex(p)], with [None] for [-1]. *)
Fixpoint findIndex (l : list A) : option nat :=
  match l with
  | [] => None
  | x :: t => if p x then Some 0%nat else option_map S (findIndex t)
  end.

(** [arr[i] = v].  JavaScript extends the array when [i] is past the
    end; the storage code only passes an index that [findIndex]
    returned, so that case is never reached and [set_nth] leaves the
    array alone there. *)
Fixpoint set_nth (i : nat) (v : A) (l : list A) : list A :=
  match l, i with
  | [], _ => []
  | _ :: t, O => v :: t
  | x :: t, S j => x :: set_nth j v t
  end.

(** [arr.length > 0 ? arr[arr.length - 1] : undefined] *)
Fixpoint last_opt (l : list A) : option A :=
  match l with
  | [] => None
  | [x] => Some x
  | _ :: t => last_opt t
  end.
End Lookup.

End JsArray.

(* ================================================================== *)
(** ** lib/calculations.ts *)

Module Calculations.

Local Open Scope Q_scope.

(** [x < 0] on numbers. *)
Definition Qltb (x y : Q) : bool := negb (Qle_bool y x).

(** [calculateBookingPay(bookings, perBooking = 50)]; the optional
    second argument is [None] when the caller leaves it out. *)
Definition calculateBookingPay (bookings : Q) (perBooking : option Q) : Q :=
  let perBooking := match perBooking with Some r => r | None => 50 end in
  if Qltb bookings 0 then 0 else bookings * perBooking.

(** [calculateTotalEarnings(basePay, bookingPay, inquiryPay = 0)] *)
Definition calculateTotalEarnings (basePay bookingPay : Q)
    (inquiryPay : option Q) : Q :=
  let inquiryPay := match inquiryPay with Some i => i | None => 0 end in
  basePay + bookingPay + inquiryPay.

(** [calculateRemaining(prevRemaining, advanceUsedToday, totalEarnedToday)] *)
Definition calculateRemaining
    (prevRemaining advanceUsedToday totalEarnedToday : Q) : Q :=
  if Qeq_bool advanceUsedToday 0
  then prevRemaining - totalEarnedToday
  else prevRemaining - advanceUsedToday + totalEarnedToday.

End Calculations.

(* ================================================================== *)
(** ** lib/storage.ts *)

Module Storage.

Import JsArray Calculations.
Local Open Scope Q_scope.

Record DailyRecord := mkRecord {
  id : string;
  date : string;
  basePay : Q;
  bookings : Q;
  bookingPay : Q;
  inquiryPay : Q;
  totalEarnings : Q;
  advanceUsed : Q;
  remaining : Q;
  notes : string;
  action : string;
  createdAt : string;
  isInitialAdvance : bool   (* optional in the source; absent reads as false *)
}.

Record EarningSettings := mkSettings {
  s_basePay : Q;
  s_perBooking : Q;
  advanceBalance : Q
}.

(** [Omit<DailyRecord, 'id' | 'createdAt'>], the argument of [saveRecord]. *)
Record RecordDraft := mkDraft {
  d_date : string;
  d_basePay : Q;
  d_bookings : Q;
  d_bookingPay : Q;
  d_inquiryPay : Q;
  d_totalEarnings : Q;
  d_advanceUsed : Q;
  d_remaining : Q;
  d_notes : string;
  d_action : string;
  d_isInitialAdvance : bool
}.

(** [Partial<Omit<DailyRecord, 'id' | 'createdAt'>>], the argument of
    [updateRecord]; [None] is a key that the patch does not have. *)
Record RecordPatch := mkPatch {
  p_date : option string;
  p_basePay : option Q;
  p_bookings : option Q;
  p_bookingPay : option Q;
  p_inquiryPay : option Q;
  p_totalEarnings : option Q;
  p_advanceUsed : option Q;
  p_remaining : option Q;
  p_notes : option string;
  p_action : option string;
  p_isInitialAdvance : option bool
}.

Definition DEFAULT_SETTINGS : EarningSettings :=
  {| s_basePay := 200; s_perBooking := 50; advanceBalance := 0 |}.

(** One [localStorage] item. *)
Inductive Item (A : Type) : Type :=
| Missing                (* getItem returns null *)
| Unparsable             (* JSON.parse throws *)
| Parsed (a : A).
Arguments Missing {A}.
Arguments Unparsable {A}.

Record Store := mkStore {
  settingsItem : Item EarningSettings;      (* 'earnings_settings' *)
  recordsItem : Item (list DailyRecord)     (* 'earnings_records' *)
}.

Definition emptyStore : Store :=
  {| settingsItem := Missing; recordsItem := Missing |}.

(** The record array as it sits in the store, in stored order. *)
Definition storedRecords (st : Store) : list DailyRecord :=
  match recordsItem st with
  | Parsed l => l
  | _ => []
  end.

(** [localStorage.setItem(RECORDS_KEY, JSON.stringify(l))] *)
Definition setRecords (l : list DailyRecord) (st : Store) : Store :=
  {| settingsItem := settingsItem st; recordsItem := Parsed l |}.

Inductive BackendMode := LocalMode | SupabaseMode.

Record Env := mkEnv {
  backendMode : BackendMode;       (* getBackendMode() *)
  hasWindow : bool                 (* typeof window !== 'undefined' *)
}.

Definition localBrowser : Env :=
  {| backendMode := LocalMode; hasWindow := true |}.

(** The errors the module throws, one constructor per message. *)
Inductive StorageError :=
| SupabaseNotImplemented    (* 'Supabase mode not yet implemented' *)
| ServerSide                (* 'Cannot ... records on server side' *)
| RecordNotFound            (* 'Record not found' *)
| InitialAdvanceExists.     (* 'An initial advance record already exists' *)

Inductive Outcome (A : Type) : Type :=
| Returned (a : A)
| Thrown (e : StorageError).
Arguments Thrown {A}.

Definition date_asc (a b : DailyRecord) : comparison :=
  String.compare (date a) (date b).
Definition date_desc (a b : DailyRecord) : comparison :=
  String.compare (date b) (date a).

Definition sortAsc := sort_by date_asc.
Definition sortDesc := sort_by date_desc.

Definition getSettings (env : Env) (st : Store) : Outcome EarningSettings :=
  match backendMode env with
  | LocalMode =>
      if negb (hasWindow env) then Returned DEFAULT_SETTINGS
      else match settingsItem st with
           | Missing => Returned DEFAULT_SETTINGS
           | Unparsable => Returned DEFAULT_SETTINGS
           | Parsed s => Returned s
           end
  | SupabaseMode => Thrown SupabaseNotImplemented
  end.

Definition saveSettings (env : Env) (settings : EarningSettings)
    (st : Store) : Outcome unit * Store :=
  match backendMode env with
  | LocalMode =>
      if negb (hasWindow env) then (Returned tt, st)
      else (Returned tt,
            {| settingsItem := Parsed settings;
               recordsItem := recordsItem st |})
  | SupabaseMode => (Thrown SupabaseNotImplemented, st)
  end.

Definition listRecords (env : Env) (st : Store) : Outcome (list DailyRecord) :=
  match backendMode env with
  | LocalMode =>
      if negb (hasWindow env) then Returned []
      else match recordsItem st with
           | Missing => Returned []
           | Unparsable => Returned []
           | Parsed records => Returned (sortDesc records)
           end
  | SupabaseMode => Thrown SupabaseNotImplemented
  end.

Definition getInitialAdvanceRecord (env : Env) (st : Store)
    : Outcome (option DailyRecord) :=
  match listRecords env st with
  | Returned records => Returned (find isInitialAdvance records)
  | Thrown e => Thrown e
  end.

Definition set_remaining (r : DailyRecord) (x : Q) : DailyRecord :=
  {| id := id r; date := date r; basePay := basePay r;
     bookings := bookings r; bookingPay := bookingPay r;
     inquiryPay := inquiryPay r; totalEarnings := totalEarnings r;
     advanceUsed := advanceUsed r; remaining := x;
     notes := notes r; action := action r; createdAt := createdAt r;
     isInitialAdvance := isInitialAdvance r |}.

(** [previousRecords.sort(desc)[0].remaining] or the fallback. *)
Definition mostRecentRemaining (previousRecords : list DailyRecord)
    (fallback : Q) : Q :=
  match sortDesc previousRecords with
  | mostRecent :: _ => remaining mostRecent
  | [] => fallback
  end.

Definition saveRecord (env : Env) (newId now : string) (record : RecordDraft)
    (st : Store) : Outcome DailyRecord * Store :=
  match backendMode env with
  | SupabaseMode => (Thrown SupabaseNotImplemented, st)
  | LocalMode =>
      if negb (hasWindow env) then (Thrown ServerSide, st) else
      match listRecords env st, getInitialAdvanceRecord env st,
            getSettings env st with
      | Returned records, Returned initialAdvance, Returned settings =>
          let prevRemaining :=
            match initialAdvance with
            | Some ia =>
                mostRecentRemaining
                  (filter (fun r => String.ltb (date r) (d_date record)
                                    && negb (isInitialAdvance r)) records)
                  (remaining ia)
            | None =>
                mostRecentRemaining
                  (filter (fun r => String.ltb (date r) (d_date record))
                          records)
                  (advanceBalance settings)
            end in
          let newRecord :=
            {| id := newId; date := d_date record;
               basePay := d_basePay record; bookings := d_bookings record;
               bookingPay := d_bookingPay record;
               inquiryPay := d_inquiryPay record;
               totalEarnings := d_totalEarnings record;
               advanceUsed := d_advanceUsed record;
               remaining := calculateRemaining prevRemaining
                              (d_advanceUsed record) (d_totalEarnings record);
               notes := d_notes record; action := d_action record;
               createdAt := now;
               isInitialAdvance := d_isInitialAdvance record |} in
          (Returned newRecord, setRecords (records ++ [newRecord]) st)
      | Thrown e, _, _ => (Thrown e, st)
      | _, Thrown e, _ => (Thrown e, st)
      | _, _, Thrown e => (Thrown e, st)
      end
  end.

(** [{ ...r, ...patch }] *)
Definition applyPatch (r : DailyRecord) (patch : RecordPatch) : DailyRecord :=
  let pick {A} (o : option A) (old : A) :=
    match o with Some v => v | None => old end in
  {| id := id r;
     date := pick (p_date patch) (date r);
     basePay := pick (p_basePay patch) (basePay r);
     bookings := pick (p_bookings patch) (bookings r);
     bookingPay := pick (p_bookingPay patch) (bookingPay r);
     inquiryPay := pick (p_inquiryPay patch) (inquiryPay r);
     totalEarnings := pick (p_totalEarnings patch) (totalEarnings r);
     advanceUsed := pick (p_advanceUsed patch) (advanceUsed r);
     remaining := pick (p_remaining patch) (remaining r);
     notes := pick (p_notes patch) (notes r);
     action := pick (p_action patch) (action r);
     createdAt := createdAt r;
     isInitialAdvance := pick (p_isInitialAdvance patch) (isInitialAdvance r) |}.

Definition is_some {A} (o : option A) : bool :=
  match o with Some _ => true | None => false end.

(** The balance a record of the recalculation loop starts from.  [done]
    is [sorted.slice(0, i)] with the values already rewritten by the
    loop, [cur] is [sorted[i]], and [anchor] is the initial advance the
    loop may use ([initialAdvance], or nothing when the deleted record
    was the initial advance). *)
Definition startingBalance (anchor : option DailyRecord)
    (settings : EarningSettings) (done : list DailyRecord)
    (cur : DailyRecord) : Q :=
  let base :=
    match anchor with
    | Some ia => remaining ia
    | None => advanceBalance settings
    end in
  let first_or_before_anchor :=
    match done with [] => true | _ => false end
    || match anchor with
       | Some ia => String.leb (date cur) (date ia)
       | None => false
       end in
  if first_or_before_anchor then base
  else
    let prevRecords :=
      filter (fun r => negb (isInitialAdvance r)
                       || String.leb (date r) (date cur)) done in
    match last_opt prevRecords with
    | Some mostRecent => remaining mostRecent
    | None => base
    end.

(** One turn of the loop body at [sorted[i] = cur]. *)
Definition restamp (anchor : option DailyRecord) (settings : EarningSettings)
    (done : list DailyRecord) (cur : DailyRecord) : DailyRecord :=
  if isInitialAdvance cur then cur
  else set_remaining cur
         (calculateRemaining (startingBalance anchor settings done cur)
            (advanceUsed cur) (totalEarnings cur)).

(** [for (let i = done.length; i < sorted.length; i++) { ... }] over
    [sorted = done ++ todo]; the result is the array after the loop. *)
Fixpoint recalculate (anchor : option DailyRecord) (settings : EarningSettings)
    (done todo : list DailyRecord) : list DailyRecord :=
  match todo with
  | [] => done
  | cur :: rest =>
      recalculate anchor settings
        (done ++ [restamp anchor settings done cur]) rest
  end.

Definition has_id (i : string) (r : DailyRecord) : bool :=
  String.eqb (id r) i.

Definition updateRecord (env : Env) (i : string) (patch : RecordPatch)
    (st : Store) : Outcome DailyRecord * Store :=
  match backendMode env with
  | SupabaseMode => (Thrown SupabaseNotImplemented, st)
  | LocalMode =>
      if negb (hasWindow env) then (Thrown ServerSide, st) else
      match listRecords env st with
      | Thrown e => (Thrown e, st)
      | Returned records =>
          match findIndex (has_id i) records with
          | None => (Thrown RecordNotFound, st)
          | Some index =>
              let updated :=
                applyPatch (nth index records (mkRecord
                   "" "" 0 0 0 0 0 0 0 "" "" "" false)) patch in
              if is_some (p_advanceUsed patch)
                 || is_some (p_totalEarnings patch)
                 || is_some (p_date patch)
              then
                let sortedRecords := sortAsc (set_nth index updated records) in
                match findIndex (has_id i) sortedRecords,
                      getInitialAdvanceRecord env st, getSettings env st with
                | Some recordIndex, Returned initialAdvance,
                  Returned settings =>
                    let result :=
                      recalculate initialAdvance settings
                        (firstn recordIndex sortedRecords)
                        (skipn recordIndex sortedRecords) in
                    match find (has_id i) result with
                    | Some r => (Returned r, setRecords result st)
                    | None => (Thrown RecordNotFound, st)
                    end
                | None, _, _ => (Thrown RecordNotFound, st)
                | _, Thrown e, _ => (Thrown e, st)
                | _, _, Thrown e => (Thrown e, st)
                end
              else
                (Returned updated, setRecords (set_nth index updated records) st)
          end
      end
  end.

Definition deleteRecord (env : Env) (i : string) (st : Store)
    : Outcome unit * Store :=
  match backendMode env with
  | SupabaseMode => (Thrown SupabaseNotImplemented, st)
  | LocalMode =>
      if negb (hasWindow env) then (Returned tt, st) else
      match listRecords env st, getInitialAdvanceRecord env st,
            getSettings env st with
      | Returned records, Returned initialAdvance, Returned settings =>
          let filtered := filter (fun r => negb (has_id i r)) records in
          let sortedFiltered := sortAsc filtered in
          let deletedRecord := find (has_id i) records in
          let isDeletedInitialAdvance :=
            match deletedRecord with
            | Some d => isInitialAdvance d
            | None => false
            end in
          let anchor :=
            if isDeletedInitialAdvance then None else initialAdvance in
          (Returned tt,
           setRecords (recalculate anchor settings [] sortedFiltered) st)
      | Thrown e, _, _ => (Thrown e, st)
      | _, Thrown e, _ => (Thrown e, st)
      | _, _, Thrown e => (Thrown e, st)
      end
  end.

(** [createInitialAdvanceRecord(advanceAmount, date?)]; [today] is
    [new Date().toISOString().split('T')[0]]. *)
Definition createInitialAdvanceRecord (env : Env) (newId now today : string)
    (advanceAmount : Q) (dateArg : option string) (st : Store)
    : Outcome DailyRecord * Store :=
  match backendMode env with
  | SupabaseMode => (Thrown SupabaseNotImplemented, st)
  | LocalMode =>
      if negb (hasWindow env) then (Thrown ServerSide, st) else
      match listRecords env st with
      | Thrown e => (Thrown e, st)
      | Returned records =>
          if existsb isInitialAdvance records
          then (Thrown InitialAdvanceExists, st)
          else
            let initialRecord :=
              {| id := newId;
                 date := match dateArg with
                         | Some d => if String.eqb d "" then today else d
                         | None => today
                         end;
                 basePay := 0; bookings := 0; bookingPay := 0;
                 inquiryPay := 0; totalEarnings := 0; advanceUsed := 0;
                 remaining := advanceAmount;
                 notes := "Initial Advance Amount";
                 action := "Initial Advance";
                 createdAt := now;
                 isInitialAdvance := true |} in
            (Returned initialRecord,
             setRecords (records ++ [initialRecord]) st)
      end
  end.

End Storage.

(* ================================================================== *)
(** ** The ledger rules as the specification words them *)

Module LedgerSpec.

Import JsArray Calculations Storage.
Local Open Scope Q_scope.

(** [Settings] as an operation of the browser sees them. *)
Definition settingsOf (st : Store) : EarningSettings :=
  match settingsItem st with
  | Parsed s => s
  | _ => DEFAULT_SETTINGS
  end.

(** A plain delta chain: the first record starts from [start], every
    later one from the new [remaining] of the record before it. *)
Fixpoint chainForward (start : Q) (l : list DailyRecord) : list DailyRecord :=
  match l with
  | [] => []
  | r :: rest =>
      let r' := set_remaining r
                  (calculateRemaining start (advanceUsed r) (totalEarnings r)) in
      r' :: chainForward (remaining r') rest
  end.

(** The non-anchor records of [l] dated strictly before [d]. *)
Definition earlierNonAnchor (d : string) (l : list DailyRecord) :=
  filter (fun r => negb (isInitialAdvance r) && String.ltb (date r) d) l.

(** Starting-balance resolution for a target dated [d], over the records
    [l] (in stored order) and the anchor, if there is one:
    - rule 1: an anchor exists and the target is dated on or before it,
      or no earlier non-anchor record exists: the anchor's [remaining];
    - rule 2: otherwise the [remaining] of the most recent non-anchor
      record dated strictly before [d], the one stored last among those
      of its date;
    - rule 3: no anchor and no earlier record: [Settings.advanceBalance]. *)
Definition resolveStart (anchor : option DailyRecord)
    (settings : EarningSettings) (l : list DailyRecord) (d : string) : Q :=
  let mostRecent := last_opt (sortAsc (earlierNonAnchor d l)) in
  match anchor with
  | Some a =>
      if String.leb d (date a) then remaining a
      else match mostRecent with
           | Some m => remaining m
           | None => remaining a
           end
  | None =>
      match mostRecent with
      | Some m => remaining m
      | None => advanceBalance settings
      end
  end.

(** The balance the rules give the record [r], the records before it in
    date order being [done], already recomputed.  The anchor keeps its
    absolute [remaining]. *)
Definition stampByRules (anchor : option DailyRecord)
    (settings : EarningSettings) (done : list DailyRecord) (r : DailyRecord)
    : DailyRecord :=
  if isInitialAdvance r then r
  else set_remaining r
         (calculateRemaining (resolveStart anchor settings done (date r))
            (advanceUsed r) (totalEarnings r)).

(** One pass over the records in date-ascending order: [done] holds the
    records recomputed so far, [todo] the ones still to come. *)
Fixpoint recomputePass (anchor : option DailyRecord)
    (settings : EarningSettings) (done todo : list DailyRecord)
    : list DailyRecord :=
  match todo with
  | [] => done
  | r :: rest =>
      recomputePass anchor settings
        (done ++ [stampByRules anchor settings done r]) rest
  end.

Definition recomputeFromScratch (st : Store) : list DailyRecord :=
  recomputePass (find isInitialAdvance (storedRecords st)) (settingsOf st)
    [] (sortAsc (storedRecords st)).


(** The mutating calls of the store, with the identifiers and clock
    readings each of them draws. *)
Inductive Call :=
| AddRecord (newId now : string) (draft : RecordDraft)
| UpdateRecord (i : string) (patch : RecordPatch)
| DeleteRecord (i : string)
| CreateAnchor (newId now today : string) (amount : Q) (d : option string).

Definition perform (c : Call) (st : Store) : Store :=
  match c with
  | AddRecord newId now draft => snd (saveRecord localBrowser newId now draft st)
  | UpdateRecord i patch => snd (updateRecord localBrowser i patch st)
  | DeleteRecord i => snd (deleteRecord localBrowser i st)
  | CreateAnchor newId now today amount d =>
      snd (createInitialAdvanceRecord localBrowser newId now today amount d st)
  end.

Definition run (calls : list Call) (st : Store) : Store :=
  fold_left (fun s c => perform c s) calls st.


(** Ids are unique across the stored records. *)
Definition unique_ids (l : list DailyRecord) : Prop :=
  NoDup (map id l).

(** The starting balance of a new record dated [d], by the three rules,
    over the stored records [l] (in insertion order). *)
Definition specStartingBalance (settings : EarningSettings)
    (l : list DailyRecord) (d : string) : Q :=
  resolveStart (find isInitialAdvance l) settings l d.

(** [addRecord] stamps the balance that the three rules give. *)
Definition addRecord_follows_rules (st : Store) (newId now : string)
    (draft : RecordDraft) : Prop :=
  exists r st',
    saveRecord localBrowser newId now draft st = (Returned r, st')
    /\ remaining r ==
       calculateRemaining
         (specStartingBalance (settingsOf st) (storedRecords st) (d_date draft))
         (d_advanceUsed draft) (d_totalEarnings draft).

(** [deleteRecord] of an absent id fails and leaves the store alone. *)
Definition delete_absent_fails (st : Store) (i : string) : Prop :=
  (forall r, In r (storedRecords st) -> id r <> i) ->
  deleteRecord localBrowser i st = (Thrown RecordNotFound, st).

(** A record without its derived balance. *)
Definition inputsOf (r : DailyRecord) : DailyRecord := set_remaining r 0.

(** A patch that carries no key other than [notes] and [action]. *)
Definition notes_or_action_only (patch : RecordPatch) : Prop :=
  p_date patch = None /\ p_basePay patch = None /\ p_bookings patch = None
  /\ p_bookingPay patch = None /\ p_inquiryPay patch = None
  /\ p_totalEarnings patch = None /\ p_advanceUsed patch = None
  /\ p_remaining patch = None /\ p_isInitialAdvance patch = None.

(** The store holds an anchor. *)
Definition has_anchor (st : Store) : Prop :=
  exists a, In a (storedRecords st) /\ isInitialAdvance a = true.

(** *** The scenario of the cascade tests *)

Local Open Scope string_scope.

Definition earningsOn (d : string) (earned : Q) : RecordDraft :=
  {| d_date := d; d_basePay := 0; d_bookings := 0; d_bookingPay := 0;
     d_inquiryPay := 0; d_totalEarnings := earned; d_advanceUsed := 0;
     d_remaining := 0; d_notes := ""; d_action := "";
     d_isInitialAdvance := false |}.

Definition emptyPatch : RecordPatch :=
  {| p_date := None; p_basePay := None; p_bookings := None;
     p_bookingPay := None; p_inquiryPay := None; p_totalEarnings := None;
     p_advanceUsed := None; p_remaining := None; p_notes := None;
     p_action := None; p_isInitialAdvance := None |}.

Definition earnedPatch (earned : Q) : RecordPatch :=
  {| p_date := None; p_basePay := None; p_bookings := None;
     p_bookingPay := None; p_inquiryPay := None;
     p_totalEarnings := Some earned;
     p_advanceUsed := None; p_remaining := None; p_notes := None;
     p_action := None; p_isInitialAdvance := None |}.

Definition notesPatch (n : string) : RecordPatch :=
  {| p_date := None; p_basePay := None; p_bookings := None;
     p_bookingPay := None; p_inquiryPay := None; p_totalEarnings := None;
     p_advanceUsed := None; p_remaining := None; p_notes := Some n;
     p_action := None; p_isInitialAdvance := None |}.

(** Anchor of 1000 on 2024-01-01, then A on 2024-01-02 earning 200 and
    B on 2024-01-03 earning 150. *)
Definition scenarioStore : Store :=
  run [CreateAnchor "anchor" "t0" "2024-06-01" 1000 (Some "2024-01-01");
       AddRecord "A" "t1" (earningsOn "2024-01-02" 200);
       AddRecord "B" "t2" (earningsOn "2024-01-03" 150)] emptyStore.

Definition scenarioAfterEdit : Store :=
  run [UpdateRecord "A" (earnedPatch 300)] scenarioStore.

Definition scenarioAfterDelete : Store :=
  run [DeleteRecord "A"] scenarioAfterEdit.

(** The stored [remaining] of the record with id [i]. *)
Definition remainingOf (i : string) (st : Store) : option Q :=
  option_map remaining (find (has_id i) (storedRecords st)).

(** A later record first, an earlier one second, no anchor. *)
Definition outOfOrderCalls : list Call :=
  [AddRecord "r1" "t1" (earningsOn "2024-01-02" 100);
   AddRecord "r2" "t2" (earningsOn "2024-01-01" 50)].

Definition outOfOrderStore : Store := run outOfOrderCalls emptyStore.

(** The balance the record after the already chained records [d] starts
    from: the new [remaining] of the last of them, or [base]. *)
Definition next_start (base : Q) (d : list DailyRecord) : Q :=
  match last_opt d with
  | Some m => remaining m
  | None => base
  end.

(** Dates never decrease along the list. *)
Fixpoint date_sorted (l : list DailyRecord) : Prop :=
  match l with
  | [] => True
  | x :: t =>
      match t with
      | [] => True
      | y :: _ => date_asc x y <> Gt
      end /\ date_sorted t
  end.

Definition unflagged (r : DailyRecord) : Prop := isInitialAdvance r = false.

Definition datePatch (d : string) : RecordPatch :=
  {| p_date := Some d; p_basePay := None; p_bookings := None;
     p_bookingPay := None; p_inquiryPay := None; p_totalEarnings := None;
     p_advanceUsed := None; p_remaining := None; p_notes := None;
     p_action := None; p_isInitialAdvance := None |}.



(** A record before the anchor and one after it, then a full
    recalculation triggered by deleting an id nobody carries. *)
Definition midAnchorCalls : list Call :=
  [CreateAnchor "anchor" "t0" "2024-06-01" 1000 (Some "2024-01-05");
   AddRecord "x" "t1" (earningsOn "2024-01-01" 100);
   AddRecord "y" "t2" (earningsOn "2024-01-10" 50);
   DeleteRecord "nobody"].

(** Two records on the same day. *)
Definition sameDayStore : Store :=
  run [AddRecord "x1" "t1" (earningsOn "2024-01-01" 100);
       AddRecord "x2" "t2" (earningsOn "2024-01-01" 50)] emptyStore.

(** An anchor dated 2024-01-10, with one record before it. *)
Definition lateAnchorCalls : list Call :=
  [CreateAnchor "anchor" "t0" "2024-06-01" 1000 (Some "2024-01-10");
   AddRecord "X" "t1" (earningsOn "2024-01-01" 100)].

Definition lateAnchorStore : Store := run lateAnchorCalls emptyStore.


(** Two records on the same day, then a full recalculation. *)
Definition sameDayCalls : list Call :=
  [AddRecord "x1" "t1" (earningsOn "2024-01-01" 100);
   AddRecord "x2" "t2" (earningsOn "2024-01-01" 50);
   DeleteRecord "nobody"].

(** An advance balance of 500 in the settings, an anchor of 1000 on
    2024-01-01, then r1 on 2024-01-03 saved before r2 on 2024-01-02. *)
Definition shuffledStore : Store :=
  run [CreateAnchor "anchor" "t0" "2024-06-01" 1000 (Some "2024-01-01");
       AddRecord "r1" "t1" (earningsOn "2024-01-03" 100);
       AddRecord "r2" "t2" (earningsOn "2024-01-02" 50)]
    (snd (saveSettings localBrowser
            {| s_basePay := 200; s_perBooking := 50; advanceBalance := 500 |}
            emptyStore)).

End LedgerSpec.

(* ================================================================== *)
(** ** lib/storage.ts, the remaining exports *)

Module StorageReads.

Import JsArray Calculations Storage.
Local Open Scope Q_scope.

Definition has_date (d : string) (r : DailyRecord) : bool :=
  String.eqb (date r) d.

(** [records.find(r => r.id === id) || null] *)
Definition getRecord (env : Env) (i : string) (st : Store)
    : Outcome (option DailyRecord) :=
  match listRecords env st with
  | Returned records => Returned (find (has_id i) records)
  | Thrown e => Thrown e
  end.

(** [records.find(r => r.date === date) || null] *)
Definition getRecordByDate (env : Env) (d : string) (st : Store)
    : Outcome (option DailyRecord) :=
  match listRecords env st with
  | Returned records => Returned (find (has_date d) records)
  | Thrown e => Thrown e
  end.

(** [records.filter(r => r.date >= startDate && r.date <= endDate)] *)
Definition getRecordsByDateRange (env : Env) (startDate endDate : string)
    (st : Store) : Outcome (list DailyRecord) :=
  match listRecords env st with
  | Returned records =>
      Returned (filter (fun r => String.leb startDate (date r)
                                 && String.leb (date r) endDate) records)
  | Thrown e => Thrown e
  end.

(** [localStorage.removeItem] of both keys. *)
Definition clearAllData (env : Env) (st : Store) : Outcome unit * Store :=
  match backendMode env with
  | LocalMode =>
      if negb (hasWindow env) then (Returned tt, st)
      else (Returned tt, {| settingsItem := Missing; recordsItem := Missing |})
  | SupabaseMode => (Thrown SupabaseNotImplemented, st)
  end.

End StorageReads.

(* ================================================================== *)
(** ** Properties of stored ledgers *)

Module LedgerProps.

Import JsArray Calculations Storage LedgerSpec StorageReads.
Local Open Scope Q_scope.

(** Dates never increase along the list (newest first). *)
Fixpoint date_sorted_desc (l : list DailyRecord) : Prop :=
  match l with
  | [] => True
  | x :: t =>
      match t with
      | [] => True
      | y :: _ => String.leb (date y) (date x) = true
      end /\ date_sorted_desc t
  end.

Definition anchorCount (l : list DailyRecord) : nat :=
  List.length (filter isInitialAdvance l).

Definition at_most_one_anchor (l : list DailyRecord) : Prop :=
  (anchorCount l <= 1)%nat.

(** A call that does not itself set the anchor flag: a draft without
    it, a patch without that key. *)
Definition plain_call (c : Call) : Prop :=
  match c with
  | AddRecord _ _ draft => d_isInitialAdvance draft = false
  | UpdateRecord _ patch => p_isInitialAdvance patch = None
  | DeleteRecord _ => True
  | CreateAnchor _ _ _ _ _ => True
  end.

(** Every id drawn by a call is new to the store the call runs on. *)
Fixpoint ids_fresh (calls : list Call) (st : Store) : Prop :=
  match calls with
  | [] => True
  | c :: rest =>
      match c with
      | AddRecord newId _ _ => ~ In newId (map id (storedRecords st))
      | CreateAnchor newId _ _ _ _ => ~ In newId (map id (storedRecords st))
      | _ => True
      end /\ ids_fresh rest (perform c st)
  end.

(** The balances left when each record's earnings are taken off in
    turn, starting from [base]. *)
Fixpoint balancesFrom (base : Q) (l : list DailyRecord) : list Q :=
  match l with
  | [] => []
  | r :: rest =>
      (base - totalEarnings r) :: balancesFrom (base - totalEarnings r) rest
  end.

(** The rewritten [todo] part of [recalculate anchor settings done todo]. *)
Fixpoint restampAll (anchor : option DailyRecord) (settings : EarningSettings)
    (done todo : list DailyRecord) : list DailyRecord :=
  match todo with
  | [] => []
  | cur :: rest =>
      restamp anchor settings done cur
      :: restampAll anchor settings
           (done ++ [restamp anchor settings done cur]) rest
  end.

(** Same record up to its derived balance, which must also agree on an
    anchor (the loop never rewrites an anchor). *)
Definition same_entry (r r' : DailyRecord) : Prop :=
  inputsOf r = inputsOf r'
  /\ (isInitialAdvance r = true -> r = r').

End LedgerProps.

(* ================================================================== *)
(** ** Orderly ledgers *)

Module LedgerOrder.

Import JsArray Calculations Storage LedgerSpec LedgerProps.
Local Open Scope string_scope.
Local Open Scope Q_scope.
Local Open Scope list_scope.














(** *** Records up to their balance *)

(** The fields the ledger reads. *)
Definition same_inputs (x y : DailyRecord) : Prop :=
  id x = id y /\ date x = date y /\ advanceUsed x = advanceUsed y
  /\ totalEarnings x = totalEarnings y
  /\ isInitialAdvance x = isInitialAdvance y.


(** The same entry of the ledger before its balance is computed: only
    an anchor brings its balance. *)
Definition ledger_in (x y : DailyRecord) : Prop :=
  same_inputs x y
  /\ (isInitialAdvance x = true -> remaining x == remaining y).


(** *** The shape of a regular ledger in date order *)











End LedgerOrder.

(* ================================================================== *)
(** ** lib/chatStorage.ts *)

Module ChatStorage.

Import Storage.

Inductive Role := UserRole | AssistantRole.

Record ChatMessage := mkMessage {
  msg_id : string;
  role : Role;
  content : string;
  timestamp : string
}.

(** What [JSON.parse] makes of the stored text. *)
Inductive ChatValue :=
| NotAnArray
| Messages (l : list ChatMessage).

(** The item under 'earnings_tracker_chat_history'. *)
Definition ChatStore := Item ChatValue.

Definition getChatHistory (window : bool) (cs : ChatStore)
    : list ChatMessage :=
  if negb window then []
  else match cs with
       | Missing => []
       | Unparsable => []
       | Parsed NotAnArray => []
       | Parsed (Messages l) => l
       end.

(** [writeOk] is whether [localStorage.setItem] goes through; when it
    throws the error is logged and swallowed. *)
Definition saveChatHistory (window writeOk : bool)
    (messages : list ChatMessage) (cs : ChatStore) : ChatStore :=
  if negb window then cs
  else if writeOk then Parsed (Messages messages) else cs.

(** [arr.slice(-n)] *)
Definition lastN (A : Type) (n : nat) (l : list A) : list A :=
  skipn (List.length l - n) l.

(** [addChatMessage({ role, content })]; the id and the timestamp are
    the values drawn for the new message. *)
Definition addChatMessage (window writeOk : bool) (newId now : string)
    (r : Role) (text : string) (cs : ChatStore) : ChatMessage * ChatStore :=
  let newMessage :=
    {| msg_id := newId; role := r; content := text; timestamp := now |} in
  let history := getChatHistory window cs in
  let updatedHistory := (history ++ [newMessage])%list in
  let trimmedHistory := lastN 100 updatedHistory in
  (newMessage, saveChatHistory window writeOk trimmedHistory cs).

Definition clearChatHistory (window removeOk : bool) (cs : ChatStore)
    : ChatStore :=
  if negb window then cs
  else if removeOk then Missing else cs.

End ChatStorage.

(* ================================================================== *)
(** ** The submit handlers of the components *)

Module Components.

Import JsArray Calculations Storage StorageReads.
Local Open Scope Q_scope.
Local Open Scope string_scope.

(** [x || 0] on a number *)
Definition orZero (x : Q) : Q := if Qeq_bool x 0 then 0 else x.

(** [s || ""] on a string *)
Definition orEmpty (s : string) : string :=
  if String.eqb s "" then "" else s.

(** The validated values of the daily-entry and edit-entry forms. *)
Record EntryFormData := mkEntryForm {
  fd_date : string;
  fd_bookedAppointments : Q;
  fd_notes : string
}.

(** AddDailyEntryCard, [onFormSubmit]: the record handed to
    [saveRecord].  [settings] is the component's state. *)
Definition dailyEntryRecord (settings : EarningSettings)
    (data : EntryFormData) : RecordDraft :=
  let bookingPay :=
    calculateBookingPay (orZero (fd_bookedAppointments data))
      (Some (s_perBooking settings)) in
  let inquiryPay := s_basePay settings in
  let totalEarnings := inquiryPay + bookingPay in
  {| d_date := fd_date data;
     d_basePay := s_basePay settings;
     d_bookings := fd_bookedAppointments data;
     d_bookingPay := bookingPay;
     d_inquiryPay := inquiryPay;
     d_totalEarnings := totalEarnings;
     d_advanceUsed := 0;
     d_remaining := 0;
     d_notes := orEmpty (fd_notes data);
     d_action := "";
     d_isInitialAdvance := false |}.

Definition submitDailyEntry (env : Env) (newId now : string)
    (settings : EarningSettings) (data : EntryFormData) (st : Store)
    : Outcome DailyRecord * Store :=
  saveRecord env newId now (dailyEntryRecord settings data) st.

(** AIChat, [executeAction] with [type === "add_record"]: the settings
    are read afresh and the total goes through [calculateTotalEarnings]. *)
Definition aiAddRecord (env : Env) (newId now : string)
    (data : EntryFormData) (st : Store) : Outcome DailyRecord * Store :=
  match getSettings env st with
  | Thrown e => (Thrown e, st)
  | Returned settings =>
      let bookingPay :=
        calculateBookingPay (fd_bookedAppointments data)
          (Some (s_perBooking settings)) in
      let inquiryPay := s_basePay settings in
      let totalEarnings :=
        calculateTotalEarnings (s_basePay settings) bookingPay (Some 0) in
      saveRecord env newId now
        {| d_date := fd_date data;
           d_basePay := s_basePay settings;
           d_bookings := fd_bookedAppointments data;
           d_bookingPay := bookingPay;
           d_inquiryPay := inquiryPay;
           d_totalEarnings := totalEarnings;
           d_advanceUsed := 0;
           d_remaining := 0;
           d_notes := orEmpty (fd_notes data);
           d_action := "";
           d_isInitialAdvance := false |} st
  end.

(** AIChat, [executeAction] with [type === "delete_record"]: the first
    listed record of that date is deleted by its id, if there is one. *)
Definition aiDeleteRecord (env : Env) (d : string) (st : Store)
    : Outcome unit * Store :=
  match listRecords env st with
  | Thrown e => (Thrown e, st)
  | Returned records =>
      match find (has_date d) records with
      | Some recordToDelete => deleteRecord env (id recordToDelete) st
      | None => (Returned tt, st)
      end
  end.

(** EditEntryDialog, [onFormSubmit]: the patch handed to [updateRecord]. *)
Definition editEntryPatch (settings : EarningSettings)
    (data : EntryFormData) : RecordPatch :=
  let bookingPay :=
    calculateBookingPay (orZero (fd_bookedAppointments data))
      (Some (s_perBooking settings)) in
  let inquiryPay := s_basePay settings in
  let totalEarnings := inquiryPay + bookingPay in
  {| p_date := Some (fd_date data);
     p_basePay := None;
     p_bookings := Some (fd_bookedAppointments data);
     p_bookingPay := Some bookingPay;
     p_inquiryPay := Some inquiryPay;
     p_totalEarnings := Some totalEarnings;
     p_advanceUsed := None;
     p_remaining := None;
     p_notes := Some (orEmpty (fd_notes data));
     p_action := None;
     p_isInitialAdvance := None |}.

(** [if (!record) return;] then [updateRecord(record.id, updatedRecord)] *)
Definition submitEditEntry (env : Env) (record : option DailyRecord)
    (settings : EarningSettings) (data : EntryFormData) (st : Store)
    : option (Outcome DailyRecord) * Store :=
  match record with
  | None => (None, st)
  | Some r =>
      let (o, st') := updateRecord env (id r) (editEntryPatch settings data) st in
      (Some o, st')
  end.

(** The validated values of the earnings-settings form. *)
Record EarningsSettingsFormData := mkSettingsForm {
  initialAdvanceAmount : Q;
  initialAdvanceDate : string;
  fixedDailyInquiryPay : Q;
  perAppointmentRate : Q
}.

(** [error.message.includes('already exists')]: of the messages the
    store throws only 'An initial advance record already exists' has
    that text. *)
Definition mentionsAlreadyExists (e : StorageError) : bool :=
  match e with
  | InitialAdvanceExists => true
  | _ => false
  end.

(** EarningsSettingsCard, [onFormSubmit] up to the reload: the outcome
    is [Thrown] when the handler ends in its [catch]. *)
Definition submitEarningsSettings (env : Env) (newId now today : string)
    (hasInitialAdvance : bool) (data : EarningsSettingsFormData)
    (st : Store) : Outcome unit * Store :=
  let settings :=
    {| s_basePay := fixedDailyInquiryPay data;
       s_perBooking := perAppointmentRate data;
       advanceBalance := initialAdvanceAmount data |} in
  match saveSettings env settings st with
  | (Thrown e, st1) => (Thrown e, st1)
  | (Returned _, st1) =>
      if negb hasInitialAdvance && Qltb 0 (initialAdvanceAmount data)
      then
        match createInitialAdvanceRecord env newId now today
                (initialAdvanceAmount data) (Some (initialAdvanceDate data))
                st1 with
        | (Returned _, st2) => (Returned tt, st2)
        | (Thrown e, st2) =>
            if mentionsAlreadyExists e then (Returned tt, st2)
            else (Thrown e, st2)
        end
      else (Returned tt, st1)
  end.

End Components.

(* ================================================================== *)
(** ** The API routes *)

Module Routes.

Import JsArray Calculations Storage StorageReads ChatStorage.
Local Open Scope string_scope.

(** The [action] field of the posted body: a string, or some other
    value of which only its rendering in a template literal matters. *)
Inductive ActionField :=
| ActionText (s : string)
| ActionOther (shown : string).

(** A truthy [data] field: the record it is cast to, its [query] (empty
    when missing) and its [chatHistory] (empty when missing). *)
Record WebhookData := mkWebhookData {
  wd_record : RecordDraft;
  wd_query : string;
  wd_chatHistory : list ChatMessage
}.

Record WebhookBody := mkWebhookBody {
  wb_action : ActionField;
  wb_data : option WebhookData      (* [None]: missing or falsy *)
}.

Inductive Payload :=
| RecordsPayload (records : list DailyRecord)
| SettingsPayload (settings : EarningSettings)
| MessagePayload (message : string)
| AiPayload (response : string)
| StatusPayload (status timestamp : string)
| ErrorPayload (error : string).

Record Response := mkResponse {
  status : nat;
  success : bool;
  payload : Payload
}.

(** The message of an error thrown by the reads and by [saveRecord]. *)
Definition thrownMessage (e : StorageError) : string :=
  match e with
  | SupabaseNotImplemented => "Supabase mode not yet implemented"
  | ServerSide => "Cannot save records on server side"
  | RecordNotFound => "Record not found"
  | InitialAdvanceExists => "An initial advance record already exists"
  end.

(** [error.message || fallback] *)
Definition orDefault (message fallback : string) : string :=
  if String.eqb message "" then fallback else message.

Definition ok (p : Payload) : Response :=
  {| status := 200; success := true; payload := p |}.

Definition failed (code : nat) (message : string) : Response :=
  {| status := code; success := false; payload := ErrorPayload message |}.

(** A route handler runs on the server, where there is no window. *)
Definition serverEnv (mode : BackendMode) : Env :=
  {| backendMode := mode; hasWindow := false |}.

Section Webhook.

(** [sendMessageToGemini(query, records, history)]: the text of the
    answer, or the message of the error it throws. *)
Variable sendMessageToGemini :
  string -> list DailyRecord -> list ChatMessage -> string + string.

(** app/api/webhooks/n8n/route.ts, [POST], on a body that parsed. *)
Definition webhookPOST (mode : BackendMode) (newId now : string)
    (body : WebhookBody) (st : Store) : Response * Store :=
  let env := serverEnv mode in
  let caught (m : string) := failed 500 (orDefault m "Internal server error") in
  match wb_action body with
  | ActionOther shown => (failed 400 ("Unknown action: " ++ shown), st)
  | ActionText action =>
      if String.eqb action "get_records" then
        match listRecords env st with
        | Returned records => (ok (RecordsPayload records), st)
        | Thrown e => (caught (thrownMessage e), st)
        end
      else if String.eqb action "get_settings" then
        match getSettings env st with
        | Returned settings => (ok (SettingsPayload settings), st)
        | Thrown e => (caught (thrownMessage e), st)
        end
      else if String.eqb action "add_record" then
        match wb_data body with
        | None => (failed 400 "Missing record data", st)
        | Some data =>
            match saveRecord env newId now (wd_record data) st with
            | (Returned _, st') =>
                (ok (MessagePayload "Record added successfully"), st')
            | (Thrown e, st') => (caught (thrownMessage e), st')
            end
        end
      else if String.eqb action "ai_query" then
        match wb_data body with
        | None => (failed 400 "Missing query", st)
        | Some data =>
            if String.eqb (wd_query data) "" then
              (failed 400 "Missing query", st)
            else
              match listRecords env st with
              | Thrown e => (caught (thrownMessage e), st)
              | Returned allRecords =>
                  match sendMessageToGemini (wd_query data) allRecords
                          (wd_chatHistory data) with
                  | inr aiResponse => (ok (AiPayload aiResponse), st)
                  | inl m => (caught m, st)
                  end
              end
        end
      else if String.eqb action "sync_status" then
        (ok (StatusPayload "ready" now), st)
      else (failed 400 ("Unknown action: " ++ action), st)
  end.

End Webhook.

Section SheetsSync.

(** [syncRecordsToSheets(records, settings)] of googleSheets.server.ts:
    [None] when it returns, the message of the error when it throws. *)
Variable syncRecordsToSheets :
  list DailyRecord -> EarningSettings -> option string.

(** [`${n}`] for an array length *)
Definition showLength (n : nat) : string :=
  NilEmpty.string_of_uint (Nat.to_uint n).

(** app/api/google-sheets/sync/route.ts, [POST]. *)
Definition syncPOST (mode : BackendMode) (st : Store) : Response :=
  let env := serverEnv mode in
  let caught (m : string) := failed 500 (orDefault m "Failed to sync") in
  match listRecords env st with
  | Thrown e => caught (thrownMessage e)
  | Returned records =>
      match getSettings env st with
      | Thrown e => caught (thrownMessage e)
      | Returned settings =>
          match syncRecordsToSheets records settings with
          | Some m => caught m
          | None =>
              ok (MessagePayload
                    ("Synced " ++ showLength (List.length records)
                     ++ " records to Google Sheets"))
          end
      end
  end.

End SheetsSync.

End Routes.


(* ================================================================== *)
(** ** Ledger arithmetic *)

Module CalculationsFacts.

Import Calculations.
Local Open Scope Q_scope.

Lemma Qltb_lt (x y : Q) : Qltb x y = true <-> x < y.
Proof.
  unfold Qltb. rewrite negb_true_iff.
  split; intro H.
  - apply Qnot_le_lt. intro Hle. apply Qle_bool_iff in Hle. congruence.
  - destruct (Qle_bool y x) eqn:E; [|reflexivity].
    apply Qle_bool_iff in E. exfalso. exact (Qlt_not_le _ _ H E).
Qed.

Lemma Qltb_ge (x y : Q) : Qltb x y = false <-> y <= x.
Proof.
  unfold Qltb. rewrite negb_false_iff. apply Qle_bool_iff.
Qed.

(** C8: booking pay is zero for a negative booking count and the exact
    product [bookings * perBooking] otherwise, for every rate. *)
Theorem calculateBookingPay_rule (b r : Q) :
  (b < 0 -> calculateBookingPay b (Some r) = 0)
  /\ (0 <= b -> calculateBookingPay b (Some r) = b * r).
Proof.
  unfold calculateBookingPay. split; intro H.
  - apply Qltb_lt in H. now rewrite H.
  - apply Qltb_ge in H. now rewrite H.
Qed.

Lemma calculateBookingPay_rule_witness :
  calculateBookingPay (-3) (Some 50) = 0
  /\ calculateBookingPay (5 # 2) (Some 50) = (5 # 2) * 50.
Proof.
  split.
  - apply (proj1 (calculateBookingPay_rule (-3) 50)). reflexivity.
  - apply (proj2 (calculateBookingPay_rule (5 # 2) 50)). discriminate.
Defined.

(** C4: with no advance drawn the earnings reduce the balance,
    [R - E]; otherwise the result is [R - A + E].  [R] may be negative. *)
Theorem calculateRemaining_rule (R A E : Q) :
  (A == 0 -> calculateRemaining R A E = R - E)
  /\ (~ A == 0 -> calculateRemaining R A E = R - A + E).
Proof.
  unfold calculateRemaining. split; intro H.
  - apply Qeq_bool_iff in H. now rewrite H.
  - destruct (Qeq_bool A 0) eqn:E0; [|reflexivity].
    apply Qeq_bool_iff in E0. contradiction.
Qed.

Lemma calculateRemaining_rule_witness :
  calculateRemaining (-20) 0 (15 # 2) = -20 - (15 # 2)
  /\ calculateRemaining 1000 300 200 = 1000 - 300 + 200.
Proof.
  split.
  - apply (proj1 (calculateRemaining_rule (-20) 0 (15 # 2))). reflexivity.
  - apply (proj2 (calculateRemaining_rule 1000 300 200)). discriminate.
Defined.

End CalculationsFacts.

(* ================================================================== *)
(** ** Facts about the array helpers *)

Module JsArrayFacts.

Import JsArray.
Local Open Scope list_scope.

Section SortFacts.
Variable A : Type.
Variable cmp : A -> A -> comparison.

Lemma insert_by_perm (x : A) (l : list A) :
  Permutation (insert_by cmp x l) (x :: l).
Proof.
  induction l as [|y t IH]; simpl.
  - apply Permutation_refl.
  - destruct (cmp x y); try apply Permutation_refl.
    eapply perm_trans; [apply perm_skip, IH | apply perm_swap].
Qed.

Lemma sort_by_perm (l : list A) : Permutation (sort_by cmp l) l.
Proof.
  induction l as [|x t IH]; simpl.
  - constructor.
  - eapply perm_trans; [apply insert_by_perm | now apply perm_skip].
Qed.

Lemma in_sort_by (x : A) (l : list A) : In x (sort_by cmp l) <-> In x l.
Proof.
  split; apply Permutation_in;
    [apply sort_by_perm | apply Permutation_sym, sort_by_perm].
Qed.

Lemma Forall_insert_by (P : A -> Prop) (x : A) (l : list A) :
  P x -> Forall P l -> Forall P (insert_by cmp x l).
Proof.
  intros Hx Hl.
  eapply Permutation_Forall;
    [apply Permutation_sym, insert_by_perm | now constructor].
Qed.

Lemma Forall_sort_by (P : A -> Prop) (l : list A) :
  Forall P l -> Forall P (sort_by cmp l).
Proof.
  apply Permutation_Forall, Permutation_sym, sort_by_perm.
Qed.

Lemma existsb_sort_by (p : A -> bool) (l : list A) :
  existsb p (sort_by cmp l) = existsb p l.
Proof.
  apply eq_true_iff_eq. rewrite !existsb_exists.
  split; intros [x [Hin Hp]]; exists x; split; auto;
    now apply in_sort_by.
Qed.
End SortFacts.

Section LookupFacts.
Variable A : Type.
Variable p : A -> bool.

Lemma findIndex_split (l : list A) (n : nat) :
  findIndex p l = Some n ->
  exists pre x post,
    l = pre ++ x :: post /\ List.length pre = n /\ p x = true
    /\ Forall (fun y => p y = false) pre.
Proof.
  revert n. induction l as [|y t IH]; simpl; intros n H; [discriminate|].
  destruct (p y) eqn:Hy.
  - inversion H; subst. exists [], y, t. repeat split; auto.
  - destruct (findIndex p t) as [m|] eqn:Hm; simpl in H; [|discriminate].
    inversion H; subst.
    destruct (IH m eq_refl) as (pre & x & post & -> & Hlen & Hx & Hpre).
    exists (y :: pre), x, post. simpl. repeat split; auto.
Qed.

Lemma findIndex_some (l : list A) :
  (exists x, In x l /\ p x = true) -> exists n, findIndex p l = Some n.
Proof.
  induction l as [|y t IH]; simpl; intros [x [Hin Hx]]; [contradiction|].
  destruct (p y) eqn:Hy; [now exists 0%nat|].
  destruct Hin as [->|Hin]; [congruence|].
  destruct IH as [n Hn]; [now exists x|].
  exists (S n). now rewrite Hn.
Qed.

Lemma findIndex_none (l : list A) :
  Forall (fun y => p y = false) l -> findIndex p l = None.
Proof.
  induction 1 as [|y t Hy _ IH]; simpl; [reflexivity|].
  now rewrite Hy, IH.
Qed.

Lemma nth_middle_len (pre post : list A) (x d : A) :
  nth (List.length pre) (pre ++ x :: post) d = x.
Proof. induction pre; simpl; auto. Qed.

Lemma set_nth_middle (pre post : list A) (x v : A) :
  set_nth (List.length pre) v (pre ++ x :: post) = pre ++ v :: post.
Proof. induction pre; simpl; congruence. Qed.

Lemma last_opt_snoc (l : list A) (x : A) : last_opt (l ++ [x]) = Some x.
Proof.
  induction l as [|y t IH]; simpl; [reflexivity|].
  rewrite IH. destruct (t ++ [x]) eqn:E; [|reflexivity].
  now destruct t.
Qed.

Lemma find_none_Forall (l : list A) :
  Forall (fun y => p y = false) l -> find p l = None.
Proof.
  induction 1 as [|y t Hy _ IH]; simpl; [reflexivity|]. now rewrite Hy.
Qed.

Lemma filter_all (l : list A) :
  Forall (fun y => p y = true) l -> filter p l = l.
Proof.
  induction 1 as [|y t Hy _ IH]; simpl; [reflexivity|].
  now rewrite Hy, IH.
Qed.
End LookupFacts.

End JsArrayFacts.

(* ================================================================== *)
(** ** The record store *)

Module StorageFacts.

Import JsArray JsArrayFacts Calculations Storage LedgerSpec.
Local Open Scope list_scope.
Local Open Scope Q_scope.

(** *** Reads in the browser *)

Lemma listRecords_local (st : Store) :
  listRecords localBrowser st = Returned (sortDesc (storedRecords st)).
Proof.
  unfold listRecords, storedRecords; simpl.
  now destruct (recordsItem st).
Qed.

Lemma getInitialAdvanceRecord_local (st : Store) :
  getInitialAdvanceRecord localBrowser st
  = Returned (find isInitialAdvance (sortDesc (storedRecords st))).
Proof. unfold getInitialAdvanceRecord. now rewrite listRecords_local. Qed.

Lemma getSettings_local (st : Store) :
  getSettings localBrowser st = Returned (settingsOf st).
Proof.
  unfold getSettings, settingsOf; simpl. now destruct (settingsItem st).
Qed.

Lemma storedRecords_setRecords (l : list DailyRecord) (st : Store) :
  storedRecords (setRecords l st) = l.
Proof. reflexivity. Qed.

Lemma settingsOf_setRecords (l : list DailyRecord) (st : Store) :
  settingsOf (setRecords l st) = settingsOf st.
Proof. reflexivity. Qed.

Lemma in_sortDesc (r : DailyRecord) (l : list DailyRecord) :
  In r (sortDesc l) <-> In r l.
Proof. apply in_sort_by. Qed.

Lemma in_sortAsc (r : DailyRecord) (l : list DailyRecord) :
  In r (sortAsc l) <-> In r l.
Proof. apply in_sort_by. Qed.

Lemma existsb_anchor_iff (st : Store) :
  existsb isInitialAdvance (sortDesc (storedRecords st)) = true
  <-> has_anchor st.
Proof.
  unfold sortDesc. rewrite existsb_sort_by, existsb_exists. reflexivity.
Qed.

(** *** C2 *)

(** C2: in the scenario (anchor 1000 on 2024-01-01, A earning 200 on
    2024-01-02 with remaining 800, B earning 150 on 2024-01-03 with
    remaining 650), editing A's earnings to 300 gives A 700 and B 550,
    and deleting A afterwards gives B 850. *)
Theorem cascade_scenario :
  remainingOf "anchor" scenarioStore = Some 1000
  /\ remainingOf "A" scenarioStore = Some 800
  /\ remainingOf "B" scenarioStore = Some 650
  /\ option_map remaining
       (match fst (updateRecord localBrowser "A" (earnedPatch 300)
                     scenarioStore) with
        | Returned r => Some r
        | Thrown _ => None
        end) = Some 700
  /\ remainingOf "A" scenarioAfterEdit = Some 700
  /\ remainingOf "B" scenarioAfterEdit = Some 550
  /\ fst (deleteRecord localBrowser "A" scenarioAfterEdit) = Returned tt
  /\ remainingOf "A" scenarioAfterDelete = None
  /\ remainingOf "B" scenarioAfterDelete = Some 850
  /\ remainingOf "anchor" scenarioAfterDelete = Some 1000.
Proof. vm_compute. repeat split. Qed.

(** *** C5 *)

(** C5: with an anchor in the store, creating another one throws
    'An initial advance record already exists' and writes nothing; with
    none, the new record is appended with [remaining] equal to the given
    amount and every earning field zero. *)
Theorem createInitialAdvanceRecord_exclusive
    (st : Store) (newId now today : string) (amount : Q)
    (d : option string) :
  (has_anchor st ->
     createInitialAdvanceRecord localBrowser newId now today amount d st
     = (Thrown InitialAdvanceExists, st))
  /\ (~ has_anchor st ->
      exists r,
        createInitialAdvanceRecord localBrowser newId now today amount d st
        = (Returned r, setRecords (sortDesc (storedRecords st) ++ [r]) st)
        /\ remaining r = amount
        /\ isInitialAdvance r = true
        /\ id r = newId
        /\ basePay r = 0 /\ bookings r = 0 /\ bookingPay r = 0
        /\ inquiryPay r = 0 /\ totalEarnings r = 0 /\ advanceUsed r = 0).
Proof.
  unfold createInitialAdvanceRecord; simpl.
  rewrite listRecords_local.
  split; intro H.
  - apply existsb_anchor_iff in H. now rewrite H.
  - destruct (existsb isInitialAdvance (sortDesc (storedRecords st))) eqn:E.
    + apply existsb_anchor_iff in E. contradiction.
    + eexists. split; [reflexivity|]. simpl. repeat split.
Qed.

Lemma createInitialAdvanceRecord_exclusive_witness :
  createInitialAdvanceRecord localBrowser "again" "t9" "2024-06-01" 5
    (Some "2024-03-01"%string) scenarioStore
  = (Thrown InitialAdvanceExists, scenarioStore)
  /\ exists r,
       createInitialAdvanceRecord localBrowser "first" "t0" "2024-06-01" 5
         None emptyStore
       = (Returned r,
          setRecords (sortDesc (storedRecords emptyStore) ++ [r]) emptyStore)
       /\ remaining r = 5.
Proof.
  split.
  - apply (proj1 (createInitialAdvanceRecord_exclusive scenarioStore
                    "again" "t9" "2024-06-01" 5 (Some "2024-03-01"%string))).
    eexists. split; [right; left; reflexivity | reflexivity].
  - destruct (proj2 (createInitialAdvanceRecord_exclusive emptyStore
                       "first" "t0" "2024-06-01" 5 None)) as [r Hr].
    + intros [a [Hin _]]. exact Hin.
    + exists r. split; [apply Hr | apply Hr].
Defined.

(** *** C10 *)

(** C10: with no stored settings, or stored settings that do not parse,
    [getSettings] returns base pay 200, per-booking rate 50 and advance
    balance 0; a first record saved into such a store with no anchor
    therefore starts from 0, and so does the recalculation loop. *)
Theorem getSettings_defaults (st : Store) :
  settingsItem st = Missing \/ settingsItem st = Unparsable ->
  getSettings localBrowser st = Returned DEFAULT_SETTINGS
  /\ s_basePay DEFAULT_SETTINGS = 200
  /\ s_perBooking DEFAULT_SETTINGS = 50
  /\ advanceBalance DEFAULT_SETTINGS = 0
  /\ (forall newId now draft,
        storedRecords st = [] ->
        exists r st',
          saveRecord localBrowser newId now draft st = (Returned r, st')
          /\ remaining r = calculateRemaining 0 (d_advanceUsed draft)
                             (d_totalEarnings draft))
  /\ (forall cur, startingBalance None (settingsOf st) [] cur = 0).
Proof.
  intros H.
  assert (Hs : settingsOf st = DEFAULT_SETTINGS)
    by (unfold settingsOf; destruct H as [-> | ->]; reflexivity).
  repeat split.
  - rewrite getSettings_local. now rewrite Hs.
  - intros newId now draft Hnil.
    unfold saveRecord; simpl.
    rewrite getInitialAdvanceRecord_local, listRecords_local,
      getSettings_local, Hnil, Hs. simpl.
    eexists. eexists. split; reflexivity.
  - intros cur. unfold startingBalance. simpl. now rewrite Hs.
Qed.

Lemma getSettings_defaults_witness :
  getSettings localBrowser emptyStore = Returned DEFAULT_SETTINGS
  /\ advanceBalance DEFAULT_SETTINGS = 0.
Proof.
  destruct (getSettings_defaults emptyStore (or_introl eq_refl))
    as (H1 & _ & _ & H2 & _).
  split; [exact H1 | exact H2].
Defined.

(** *** C9 *)

(** C9: a patch with no key other than [notes] and [action], applied to
    an existing id, rewrites that one record in place: its [remaining]
    and every field but [notes] and [action] are kept, and every other
    record of the store is kept as it is. *)
Theorem updateRecord_notes_frame (st : Store) (i : string)
    (patch : RecordPatch) :
  (exists r, In r (storedRecords st) /\ id r = i) ->
  notes_or_action_only patch ->
  exists pre old post,
    sortDesc (storedRecords st) = pre ++ old :: post
    /\ id old = i
    /\ updateRecord localBrowser i patch st
       = (Returned (applyPatch old patch),
          setRecords (pre ++ applyPatch old patch :: post) st)
    /\ remaining (applyPatch old patch) = remaining old
    /\ inputsOf (applyPatch old patch)
       = inputsOf
           {| id := id old; date := date old; basePay := basePay old;
              bookings := bookings old; bookingPay := bookingPay old;
              inquiryPay := inquiryPay old;
              totalEarnings := totalEarnings old;
              advanceUsed := advanceUsed old; remaining := remaining old;
              notes := match p_notes patch with
                       | Some n => n
                       | None => notes old
                       end;
              action := match p_action patch with
                        | Some a => a
                        | None => action old
                        end;
              createdAt := createdAt old;
              isInitialAdvance := isInitialAdvance old |}
    /\ map remaining (pre ++ applyPatch old patch :: post)
       = map remaining (sortDesc (storedRecords st))
    /\ Permutation (pre ++ old :: post) (storedRecords st).
Proof.
  intros [r [Hin Hid]] (Hd & Hb & Hk & Hbp & Hip & Hte & Hau & Hrem & Hia).
  destruct (findIndex_some (has_id i) (sortDesc (storedRecords st)))
    as [n Hn].
  { exists r. split; [now apply in_sortDesc|].
    unfold has_id. now apply String.eqb_eq. }
  destruct (findIndex_split _ _ Hn) as (pre & old & post & Hsplit & Hlen & Hold & _).
  exists pre, old, post.
  assert (Hkeep : remaining (applyPatch old patch) = remaining old)
    by (unfold applyPatch; simpl; now rewrite Hrem).
  repeat split.
  - exact Hsplit.
  - unfold has_id in Hold. now apply String.eqb_eq.
  - unfold updateRecord; simpl.
    rewrite listRecords_local, Hn, Hau, Hte, Hd. simpl.
    rewrite Hsplit, <- Hlen, nth_middle_len, set_nth_middle. reflexivity.
  - exact Hkeep.
  - unfold applyPatch, inputsOf, set_remaining; simpl.
    now rewrite Hd, Hb, Hk, Hbp, Hip, Hte, Hau, Hia.
  - rewrite Hsplit, !map_app. cbn [map]. now rewrite Hkeep.
  - rewrite <- Hsplit. apply sort_by_perm.
Qed.

Lemma updateRecord_notes_frame_witness :
  exists pre old post,
    sortDesc (storedRecords scenarioStore) = pre ++ old :: post
    /\ updateRecord localBrowser "A" (notesPatch "late shift") scenarioStore
       = (Returned (applyPatch old (notesPatch "late shift")),
          setRecords (pre ++ applyPatch old (notesPatch "late shift") :: post)
            scenarioStore)
    /\ remaining (applyPatch old (notesPatch "late shift")) = remaining old.
Proof.
  destruct (updateRecord_notes_frame scenarioStore (i := "A")
              (patch := notesPatch "late shift"))
    as (pre & old & post & H1 & _ & H3 & H4 & _).
  - eexists. split; [left; reflexivity | reflexivity].
  - repeat split.
  - exists pre, old, post. repeat split; assumption.
Defined.

(** *** The order on dates *)

Lemma compare_as_OT (a b : string) :
  String.compare a b = String_as_OT.compare a b.
Proof.
  revert b. induction a as [|c a IH]; destruct b as [|c' b]; simpl; auto;
    try (rewrite IH; reflexivity).
Qed.

Lemma ltb_compare (a b : string) :
  String.ltb a b = true <-> String.compare a b = Lt.
Proof.
  unfold String.ltb. destruct (String.compare a b); split; congruence.
Qed.

Lemma leb_compare (a b : string) :
  String.leb a b = true <-> String.compare a b <> Gt.
Proof.
  unfold String.leb. destruct (String.compare a b); split; congruence.
Qed.

Lemma compare_flip (a b : string) :
  String.compare a b = Lt <-> String.compare b a = Gt.
Proof.
  rewrite (String.compare_antisym a b).
  destruct (String.compare b a); simpl; split; congruence.
Qed.

Lemma leb_refl (a : string) : String.leb a a = true.
Proof.
  apply leb_compare. intro H.
  pose proof (proj2 (compare_flip a a) H). congruence.
Qed.

Lemma ltb_leb (a b : string) : String.ltb a b = true -> String.leb a b = true.
Proof. rewrite ltb_compare, leb_compare. congruence. Qed.

Lemma ltb_not_leb (a b : string) :
  String.ltb a b = true -> String.leb b a = false.
Proof.
  rewrite ltb_compare, compare_flip. unfold String.leb. now intros ->.
Qed.

Lemma lt_trans (a b c : string) :
  String.compare a b = Lt -> String.compare b c = Lt ->
  String.compare a c = Lt.
Proof.
  rewrite !compare_as_OT.
  exact (@StrictOrder_Transitive _ _ String_as_OT.lt_strorder a b c).
Qed.

Lemma leb_trans (a b c : string) :
  String.leb a b = true -> String.leb b c = true -> String.leb a c = true.
Proof.
  rewrite !leb_compare. intros Hab Hbc.
  destruct (String.compare a b) eqn:Eab; try congruence.
  - apply String.compare_eq_iff in Eab. now subst.
  - destruct (String.compare b c) eqn:Ebc; try congruence.
    + apply String.compare_eq_iff in Ebc. subst. congruence.
    + rewrite (lt_trans _ _ _ Eab Ebc). discriminate.
Qed.

(** *** Sorted arrays *)


Lemma date_sorted_same_dates (l l' : list DailyRecord) :
  map date l = map date l' -> date_sorted l -> date_sorted l'.
Proof.
  revert l'. induction l as [|x t IH]; destruct l' as [|x' t']; simpl;
    try discriminate; auto.
  intros Heq [Hx Ht]. injection Heq as Hd Hrest.
  split; [|now apply IH].
  destruct t as [|y u]; destruct t' as [|y' u']; simpl in *;
    try discriminate; auto.
  injection Hrest as Hy _. unfold date_asc in *. now rewrite <- Hd, <- Hy.
Qed.

Lemma insert_date_sorted (x : DailyRecord) (l : list DailyRecord) :
  date_sorted l -> date_sorted (insert_by date_asc x l).
Proof.
  induction l as [|y t IH]; simpl; [auto|].
  intros [Hy Ht].
  destruct (date_asc x y) eqn:E.
  - simpl. repeat split; auto. congruence.
  - simpl. repeat split; auto. congruence.
  - assert (Hyx : date_asc y x <> Gt).
    { unfold date_asc in *. intro H. apply compare_flip in H. congruence. }
    specialize (IH Ht). simpl. split; [|exact IH].
    destruct t as [|z u]; simpl in *; [exact Hyx|].
    destruct (date_asc x z); auto.
Qed.

Lemma sortAsc_date_sorted (l : list DailyRecord) : date_sorted (sortAsc l).
Proof.
  induction l as [|x t IH]; simpl; [exact I|].
  now apply insert_date_sorted.
Qed.


(** *** Delta chains *)

Lemma chainForward_idem (x : Q) (l : list DailyRecord) :
  chainForward x (chainForward x l) = chainForward x l.
Proof.
  revert x. induction l as [|r t IH]; intros x; simpl; [reflexivity|].
  now rewrite IH.
Qed.

Lemma chainForward_dates (x : Q) (l : list DailyRecord) :
  map date (chainForward x l) = map date l.
Proof.
  revert x. induction l as [|r t IH]; intros x; simpl; [reflexivity|].
  now rewrite IH.
Qed.

Lemma chainForward_inputs (x : Q) (l : list DailyRecord) :
  map inputsOf (chainForward x l) = map inputsOf l.
Proof.
  revert x. induction l as [|r t IH]; intros x; simpl; [reflexivity|].
  now rewrite IH.
Qed.

Lemma Forall_chainForward (P : DailyRecord -> Prop) (x : Q)
    (l : list DailyRecord) :
  (forall r y, P r -> P (set_remaining r y)) ->
  Forall P l -> Forall P (chainForward x l).
Proof.
  intros HP Hl. revert x.
  induction Hl as [|r t Hr _ IH]; intros x; simpl; constructor; auto.
Qed.

Lemma next_start_snoc (base : Q) (d : list DailyRecord) (r : DailyRecord) :
  next_start base (d ++ [r]) = remaining r.
Proof. unfold next_start. now rewrite last_opt_snoc. Qed.

(** *** The recalculation loop without an anchor *)

Lemma startingBalance_no_anchor (s : EarningSettings)
    (d : list DailyRecord) (cur : DailyRecord) :
  Forall unflagged d ->
  startingBalance None s d cur = next_start (advanceBalance s) d.
Proof.
  intros Hd. unfold startingBalance, next_start.
  destruct d as [|x t]; [reflexivity|].
  rewrite orb_false_r. cbv zeta. rewrite filter_all; [reflexivity|].
  eapply Forall_impl; [|exact Hd].
  intros r Hr. unfold unflagged in Hr. now rewrite Hr.
Qed.

Lemma recalculate_no_anchor (s : EarningSettings)
    (d todo : list DailyRecord) :
  Forall unflagged d -> Forall unflagged todo ->
  recalculate None s d todo
  = d ++ chainForward (next_start (advanceBalance s) d) todo.
Proof.
  intros Hd Htodo. revert d Hd.
  induction Htodo as [|cur rest Hcur _ IH]; intros d Hd; simpl.
  - now rewrite app_nil_r.
  - unfold restamp at 1. unfold unflagged in Hcur. rewrite Hcur.
    rewrite startingBalance_no_anchor by assumption.
    rewrite IH.
    + rewrite next_start_snoc, <- app_assoc. reflexivity.
    + apply Forall_app. split; [assumption|].
      constructor; [exact Hcur | constructor].
Qed.

(** Every pass keeps the inputs of every record. *)
Lemma restamp_inputs (anchor : option DailyRecord) (s : EarningSettings)
    (d : list DailyRecord) (cur : DailyRecord) :
  inputsOf (restamp anchor s d cur) = inputsOf cur.
Proof. unfold restamp. now destruct (isInitialAdvance cur). Qed.

Lemma recalculate_inputs (anchor : option DailyRecord) (s : EarningSettings)
    (d todo : list DailyRecord) :
  map inputsOf (recalculate anchor s d todo) = map inputsOf (d ++ todo).
Proof.
  revert d. induction todo as [|cur rest IH]; intros d; simpl.
  - now rewrite app_nil_r.
  - rewrite IH, <- app_assoc, !map_app. simpl.
    now rewrite restamp_inputs.
Qed.

(** *** Deleting *)

Lemma deleteRecord_local (st : Store) (i : string) :
  deleteRecord localBrowser i st
  = (Returned tt,
     setRecords
       (recalculate
          (if match find (has_id i) (sortDesc (storedRecords st)) with
              | Some d => isInitialAdvance d
              | None => false
              end
           then None
           else find isInitialAdvance (sortDesc (storedRecords st)))
          (settingsOf st) []
          (sortAsc (filter (fun r => negb (has_id i r))
                      (sortDesc (storedRecords st))))) st).
Proof.
  unfold deleteRecord; simpl.
  now rewrite listRecords_local, getInitialAdvanceRecord_local,
    getSettings_local.
Qed.

Lemma has_id_true (i : string) (r : DailyRecord) :
  has_id i r = true <-> id r = i.
Proof. unfold has_id. apply String.eqb_eq. Qed.

Lemma has_id_false (i : string) (r : DailyRecord) :
  has_id i r = false <-> id r <> i.
Proof. unfold has_id. apply String.eqb_neq. Qed.

(** C6 (as the code has it): deleting an id that no record carries does
    not fail.  It removes nothing and changes no input of any record,
    but it rewrites the stored array in date-ascending order with the
    balances of the full recalculation pass. *)
Theorem deleteRecord_absent_id (st : Store) (i : string) :
  (forall r, In r (storedRecords st) -> id r <> i) ->
  exists st',
    deleteRecord localBrowser i st = (Returned tt, st')
    /\ settingsItem st' = settingsItem st
    /\ storedRecords st'
       = recalculate (find isInitialAdvance (sortDesc (storedRecords st)))
           (settingsOf st) [] (sortAsc (sortDesc (storedRecords st)))
    /\ Permutation (map inputsOf (storedRecords st'))
         (map inputsOf (storedRecords st))
    /\ date_sorted (storedRecords st').
Proof.
  intros Habsent.
  set (L0 := sortDesc (storedRecords st)).
  assert (HL0 : Forall (fun r => has_id i r = false) L0).
  { apply Forall_forall. intros r Hr. apply has_id_false, Habsent.
    now apply in_sortDesc. }
  assert (Hfind : find (has_id i) L0 = None) by now apply find_none_Forall.
  assert (Hfilter : filter (fun r => negb (has_id i r)) L0 = L0).
  { apply filter_all. eapply Forall_impl; [|exact HL0].
    intros r Hr. simpl in Hr. now rewrite Hr. }
  assert (Hinputs :
    map inputsOf (recalculate (find isInitialAdvance L0) (settingsOf st) []
                    (sortAsc L0)) = map inputsOf (sortAsc L0))
    by apply recalculate_inputs.
  eexists. split; [apply deleteRecord_local|].
  rewrite storedRecords_setRecords. fold L0. rewrite Hfind, Hfilter.
  repeat split.
  - rewrite Hinputs. apply Permutation_map.
    eapply perm_trans; apply sort_by_perm.
  - apply date_sorted_same_dates with (l := sortAsc L0);
      [|apply sortAsc_date_sorted].
    apply (f_equal (map date)) in Hinputs.
    rewrite !map_map in Hinputs. symmetry. exact Hinputs.
Qed.

Lemma deleteRecord_absent_id_witness :
  exists st',
    deleteRecord localBrowser "nobody" outOfOrderStore = (Returned tt, st')
    /\ date_sorted (storedRecords st').
Proof.
  destruct (deleteRecord_absent_id outOfOrderStore (i := "nobody"))
    as (st' & Hdel & _ & _ & _ & Hsorted).
  - intros r [<-|[<-|[]]]; discriminate.
  - exists st'. split; assumption.
Defined.

(** C6, refuted as stated: in a store holding r1 (2024-01-02, stored
    balance -100) and r2 (2024-01-01), deleting the absent id "nobody"
    returns normally and rewrites r1's balance to -150. *)
Lemma delete_absent_counterexample :
  (forall r, In r (storedRecords outOfOrderStore) -> id r <> "nobody"%string)
  /\ fst (deleteRecord localBrowser "nobody" outOfOrderStore) = Returned tt
  /\ remainingOf "r1" outOfOrderStore = Some (-100)
  /\ remainingOf "r1" (snd (deleteRecord localBrowser "nobody"
                              outOfOrderStore)) = Some (-150)
  /\ ~ delete_absent_fails outOfOrderStore "nobody".
Proof.
  assert (H : forall r, In r (storedRecords outOfOrderStore) ->
                        id r <> "nobody"%string)
    by (intros r [<-|[<-|[]]]; discriminate).
  repeat split; try exact H; try reflexivity.
  intros Hfail. specialize (Hfail H). discriminate Hfail.
Qed.

(** *** Convergence *)

Lemma insert_asc_front (x : DailyRecord) (l : list DailyRecord) :
  Forall (fun r => String.ltb (date x) (date r) = true) l ->
  insert_by date_asc x l = x :: l.
Proof.
  destruct 1 as [|y t Hy _]; simpl; [reflexivity|].
  apply ltb_compare in Hy. unfold date_asc. now rewrite Hy.
Qed.

Lemma insert_asc_behind (a x : DailyRecord) (l : list DailyRecord) :
  String.ltb (date a) (date x) = true ->
  insert_by date_asc x (a :: l) = a :: insert_by date_asc x l.
Proof.
  intros H. apply ltb_compare, compare_flip in H. simpl.
  unfold date_asc at 1. now rewrite H.
Qed.

Lemma unique_ids_eq (l : list DailyRecord) (x y : DailyRecord) :
  unique_ids l -> In x l -> In y l -> id x = id y -> x = y.
Proof.
  unfold unique_ids. induction l as [|z l IH]; simpl; [contradiction|].
  intros Hnd Hx Hy Hid. inversion Hnd as [|? ? Hz Hnd']; subst.
  destruct Hx as [->|Hx], Hy as [->|Hy]; auto.
  - exfalso. apply Hz. rewrite Hid. now apply in_map.
  - exfalso. apply Hz. rewrite <- Hid. now apply in_map.
Qed.




(** The recalculation loop restarts the chain at the anchor: the record
    after it starts from the anchor's balance (1000 - 50 here) although
    an earlier non-anchor record exists, which rule 2 chains from
    (900 - 50). *)
Example deleteRecord_anchor_in_the_middle :
  remainingOf "y" (run midAnchorCalls emptyStore) = Some 950
  /\ option_map remaining
       (find (has_id "y")
          (recomputeFromScratch (run midAnchorCalls emptyStore)))
     = Some 850.
Proof. split; reflexivity. Qed.

(** Two records of one day: [saveRecord] starts both from the balance
    before that day, as rule 2 has it; the recalculation loop chains
    the second from the first. *)
Example same_day_records :
  map remaining (storedRecords sameDayStore) = [-100; -50]
  /\ map remaining (recomputeFromScratch sameDayStore) = [-100; -50]
  /\ map remaining (storedRecords (run sameDayCalls emptyStore))
     = [-100; -150].
Proof. repeat split; reflexivity. Qed.

(** *** Saving *)


Lemma no_member_nil (A : Type) (l : list A) :
  (forall x, ~ In x l) -> l = [].
Proof.
  destruct l as [|x t]; [reflexivity|]. intros H.
  exfalso. apply (H x). now left.
Qed.

(** C3: [saveRecord] misses rule 1 and the tie-break of rule 2, which
    the recalculation loop of [updateRecord] and [deleteRecord] applies
    to the very same record.
    - With the anchor (1000) dated 2024-01-10 and X (balance 900) dated
      2024-01-01, a draft dated 2024-01-05 earning 50 is on or before
      the anchor's date: the rules start it from 1000.  [saveRecord]
      starts it from X and stamps 850; editing the saved record, or
      deleting an id nobody carries, re-stamps it to 950.
    - With x1 (balance -100) and x2 (balance -50) both dated 2024-01-01,
      a draft dated 2024-01-02 earning 10 starts, by the rules, from x2,
      the one inserted last.  [saveRecord] starts it from x1 and stamps
      -110; editing the saved record re-stamps it to -60. *)
Theorem saveRecord_misses_the_rules :
  let draftY := earningsOn "2024-01-05" 50 in
  let savedY := snd (saveRecord localBrowser "Y" "t2" draftY lateAnchorStore) in
  let draftZ := earningsOn "2024-01-02" 10 in
  let savedZ := snd (saveRecord localBrowser "z" "t3" draftZ sameDayStore) in
  (has_anchor lateAnchorStore
   /\ specStartingBalance (settingsOf lateAnchorStore)
        (storedRecords lateAnchorStore) "2024-01-05" = 1000
   /\ remainingOf "Y" savedY = Some 850
   /\ remainingOf "Y" (snd (updateRecord localBrowser "Y" (earnedPatch 50)
                              savedY)) = Some 950
   /\ remainingOf "Y" (snd (deleteRecord localBrowser "nobody" savedY))
      = Some 950
   /\ ~ addRecord_follows_rules lateAnchorStore "Y" "t2" draftY)
  /\ (specStartingBalance (settingsOf sameDayStore)
        (storedRecords sameDayStore) "2024-01-02" = -50
      /\ remainingOf "z" savedZ = Some (-100 - 10)
      /\ remainingOf "z" (snd (updateRecord localBrowser "z" (earnedPatch 10)
                                 savedZ)) = Some (-50 - 10)
      /\ ~ addRecord_follows_rules sameDayStore "z" "t3" draftZ).
Proof.
  cbv zeta. split.
  - split; [eexists; split; [left; reflexivity | reflexivity]|].
    split; [reflexivity|]. split; [reflexivity|]. split; [reflexivity|].
    split; [reflexivity|].
    intros (r & st' & Hsave & Hrem).
    vm_compute in Hsave. injection Hsave as <- _.
    vm_compute in Hrem. discriminate Hrem.
  - split; [reflexivity|]. split; [reflexivity|]. split; [reflexivity|].
    intros (r & st' & Hsave & Hrem).
    vm_compute in Hsave. injection Hsave as <- _.
    vm_compute in Hrem. discriminate Hrem.
Qed.

End StorageFacts.

(* ================================================================== *)
(** ** Stability of the sort *)

Module SortStability.

Import JsArray JsArrayFacts.
Local Open Scope list_scope.

Section Stable.
Variable A : Type.
Variable cmp : A -> A -> comparison.
Variable p : A -> bool.

(** [p] picks elements that the comparator never orders strictly. *)
Hypothesis p_not_across :
  forall x y, cmp x y = Gt -> p x = true -> p y = false.

Lemma filter_insert_by (x : A) (l : list A) :
  filter p (insert_by cmp x l)
  = if p x then x :: filter p l else filter p l.
Proof.
  induction l as [|y t IH]; simpl.
  - now destruct (p x).
  - destruct (cmp x y) eqn:E; simpl; try now destruct (p x).
    rewrite IH. destruct (p x) eqn:Ex; [|reflexivity].
    now rewrite (p_not_across E Ex).
Qed.

Lemma filter_sort_by (l : list A) :
  filter p (sort_by cmp l) = filter p l.
Proof.
  induction l as [|x t IH]; simpl; [reflexivity|].
  rewrite filter_insert_by, IH. reflexivity.
Qed.
End Stable.

Lemma find_as_filter (A : Type) (p : A -> bool) (l : list A) :
  find p l = hd_error (filter p l).
Proof.
  induction l as [|x t IH]; simpl; [reflexivity|].
  now destruct (p x).
Qed.

Lemma find_sort_by (A : Type) (cmp : A -> A -> comparison) (p : A -> bool)
    (l : list A) :
  (forall x y, cmp x y = Gt -> p x = true -> p y = false) ->
  find p (sort_by cmp l) = find p l.
Proof.
  intros H. rewrite !find_as_filter. now rewrite filter_sort_by.
Qed.

Lemma filter_perm (A : Type) (p : A -> bool) (l l' : list A) :
  Permutation l l' -> Permutation (filter p l) (filter p l').
Proof.
  induction 1 as [|x l l' _ IH|x y l|l l' l'' _ IH1 _ IH2]; simpl.
  - constructor.
  - destruct (p x); [now constructor | exact IH].
  - destruct (p x), (p y); try apply Permutation_refl. apply perm_swap.
  - eapply perm_trans; eassumption.
Qed.

Lemma find_unique (A : Type) (p : A -> bool) (l : list A) (x : A) :
  In x l -> p x = true ->
  (forall y, In y l -> p y = true -> y = x) ->
  find p l = Some x.
Proof.
  induction l as [|z t IH]; simpl; [contradiction|].
  intros Hin Hx Huniq.
  destruct (p z) eqn:Ez.
  - f_equal. apply Huniq; auto.
  - destruct Hin as [->|Hin]; [congruence|].
    apply IH; auto.
Qed.

End SortStability.

(* ================================================================== *)
(** ** The remaining exports of the record store *)

Module StorageReadsFacts.

Import JsArray JsArrayFacts Calculations Storage LedgerSpec StorageReads.
Import LedgerProps StorageFacts SortStability.
Local Open Scope list_scope.
Local Open Scope Q_scope.

Lemma compare_same (a : string) : String.compare a a = Eq.
Proof.
  pose proof (String.compare_antisym a a) as H.
  destruct (String.compare a a); simpl in H; congruence.
Qed.

Lemma has_date_true (d : string) (r : DailyRecord) :
  has_date d r = true <-> date r = d.
Proof. unfold has_date. apply String.eqb_eq. Qed.

Lemma has_date_not_across_asc (d : string) (x y : DailyRecord) :
  date_asc x y = Gt -> has_date d x = true -> has_date d y = false.
Proof.
  intros Hgt Hx. destruct (has_date d y) eqn:Hy; [|reflexivity].
  apply has_date_true in Hx, Hy. unfold date_asc in Hgt.
  rewrite Hx, Hy, compare_same in Hgt. discriminate.
Qed.

Lemma has_date_not_across_desc (d : string) (x y : DailyRecord) :
  date_desc x y = Gt -> has_date d x = true -> has_date d y = false.
Proof.
  intros Hgt Hx. destruct (has_date d y) eqn:Hy; [|reflexivity].
  apply has_date_true in Hx, Hy. unfold date_desc in Hgt.
  rewrite Hx, Hy, compare_same in Hgt. discriminate.
Qed.

Lemma insert_date_sorted_desc (x : DailyRecord) (l : list DailyRecord) :
  date_sorted_desc l -> date_sorted_desc (insert_by date_desc x l).
Proof.
  induction l as [|y t IH]; simpl; [auto|].
  intros [Hy Ht].
  assert (Hle : date_desc x y <> Gt -> String.leb (date y) (date x) = true).
  { intros H. apply leb_compare. exact H. }
  destruct (date_desc x y) eqn:E.
  - simpl. repeat split; auto. apply Hle. discriminate.
  - simpl. repeat split; auto. apply Hle. discriminate.
  - assert (Hxy : String.leb (date x) (date y) = true).
    { apply ltb_leb, ltb_compare, compare_flip. exact E. }
    specialize (IH Ht). simpl. split; [|exact IH].
    destruct t as [|z u]; simpl in *; [exact Hxy|].
    destruct (date_desc x z); auto.
Qed.

Lemma sortDesc_date_sorted_desc (l : list DailyRecord) :
  date_sorted_desc (sortDesc l).
Proof.
  induction l as [|x t IH]; simpl; [exact I|].
  now apply insert_date_sorted_desc.
Qed.

Lemma date_sorted_desc_head (x : DailyRecord) (t : list DailyRecord) :
  date_sorted_desc (x :: t) ->
  Forall (fun y => String.leb (date y) (date x) = true) t.
Proof.
  revert x. induction t as [|y u IH]; intros x [Hx Ht]; constructor.
  - exact Hx.
  - eapply Forall_impl; [|exact (IH y Ht)].
    intros z Hz. simpl in Hz. now apply leb_trans with (date y).
Qed.

Lemma date_sorted_desc_filter (f : DailyRecord -> bool)
    (l : list DailyRecord) :
  date_sorted_desc l -> date_sorted_desc (filter f l).
Proof.
  induction l as [|x t IH]; [auto|].
  intros Hs. pose proof (date_sorted_desc_head Hs) as Hhead.
  destruct Hs as [_ Ht]. specialize (IH Ht). simpl.
  destruct (f x); [|exact IH].
  simpl. split; [|exact IH].
  destruct (filter f t) as [|y u] eqn:E; [exact I|].
  rewrite Forall_forall in Hhead. apply Hhead.
  apply (proj1 (filter_In f y t)). rewrite E. now left.
Qed.

(** X1: [listRecords] returns the stored records newest first, and records
    that share a date stay in their stored order. *)
Theorem listRecords_newest_first (st : Store) :
  exists l,
    listRecords localBrowser st = Returned l
    /\ Permutation l (storedRecords st)
    /\ date_sorted_desc l
    /\ forall d, filter (has_date d) l
                 = filter (has_date d) (storedRecords st).
Proof.
  exists (sortDesc (storedRecords st)). repeat split.
  - apply listRecords_local.
  - apply sort_by_perm.
  - apply sortDesc_date_sorted_desc.
  - intros d. apply filter_sort_by. apply has_date_not_across_desc.
Qed.

(** X2: Looking a date up returns the first record stored under that date,
    whatever the other dates are; [null] when no record has it. *)
Theorem getRecordByDate_first_stored (st : Store) (d : string) :
  getRecordByDate localBrowser d st
  = Returned (find (has_date d) (storedRecords st))
  /\ ((forall r, In r (storedRecords st) -> date r <> d) ->
      getRecordByDate localBrowser d st = Returned None).
Proof.
  assert (H : getRecordByDate localBrowser d st
              = Returned (find (has_date d) (storedRecords st))).
  { unfold getRecordByDate. rewrite listRecords_local. f_equal.
    apply find_sort_by. apply has_date_not_across_desc. }
  split; [exact H|].
  intros Hnone. rewrite H. f_equal. apply find_none_Forall.
  apply Forall_forall. intros r Hr.
  destruct (has_date d r) eqn:E; [|reflexivity].
  apply has_date_true in E. exfalso. exact (Hnone r Hr E).
Qed.

Lemma getRecordByDate_first_stored_witness :
  getRecordByDate localBrowser "2024-02-01" scenarioStore = Returned None.
Proof.
  apply (proj2 (getRecordByDate_first_stored scenarioStore "2024-02-01")).
  intros r [<-|[<-|[<-|[]]]]; discriminate.
Defined.

(** X3: A date range returns exactly the stored records dated inside it
    (bounds included), newest first, and nothing when the end date is
    before the start date. *)
Theorem getRecordsByDateRange_bounds (st : Store) (startDate endDate : string) :
  exists l,
    getRecordsByDateRange localBrowser startDate endDate st = Returned l
    /\ (forall r, In r l <->
                  In r (storedRecords st)
                  /\ String.leb startDate (date r) = true
                  /\ String.leb (date r) endDate = true)
    /\ date_sorted_desc l
    /\ (String.ltb endDate startDate = true -> l = []).
Proof.
  unfold getRecordsByDateRange. rewrite listRecords_local.
  eexists. split; [reflexivity|]. repeat split.
  - apply filter_In in H. now apply in_sortDesc.
  - apply filter_In in H. destruct H as [_ H].
    now apply andb_true_iff in H.
  - apply filter_In in H. destruct H as [_ H].
    now apply andb_true_iff in H.
  - intros (Hin & Ha & Hb). apply filter_In. split.
    + now apply in_sortDesc.
    + now rewrite Ha, Hb.
  - apply date_sorted_desc_filter, sortDesc_date_sorted_desc.
  - intros Hlt. apply no_member_nil. intros r Hr.
    apply filter_In in Hr. destruct Hr as [_ H].
    apply andb_true_iff in H. destruct H as [Ha Hb].
    pose proof (leb_trans _ _ _ Ha Hb) as Hab.
    rewrite (ltb_not_leb _ _ Hlt) in Hab. discriminate.
Qed.

(** X4: What [saveSettings] writes is what [getSettings] then returns; a
    later save replaces it, and the records are not touched. *)
Theorem saveSettings_getSettings (st : Store) (s s' : EarningSettings) :
  let st1 := snd (saveSettings localBrowser s st) in
  let st2 := snd (saveSettings localBrowser s' st1) in
  fst (saveSettings localBrowser s st) = Returned tt
  /\ getSettings localBrowser st1 = Returned s
  /\ getSettings localBrowser st2 = Returned s'
  /\ recordsItem st1 = recordsItem st
  /\ listRecords localBrowser st2 = listRecords localBrowser st.
Proof. repeat split. Qed.

(** X5: [clearAllData] forgets settings and records alike: afterwards the
    store reads as an empty one and every later sequence of calls runs
    as it would from the empty store. *)
Theorem clearAllData_resets (st : Store) :
  let st' := snd (clearAllData localBrowser st) in
  fst (clearAllData localBrowser st) = Returned tt
  /\ listRecords localBrowser st' = Returned []
  /\ getSettings localBrowser st' = Returned DEFAULT_SETTINGS
  /\ getInitialAdvanceRecord localBrowser st' = Returned None
  /\ forall calls, run calls st' = run calls emptyStore.
Proof. repeat split. Qed.

(** X6: Without a window, or in Supabase mode, no operation writes: the
    store is the same after every call, whatever its arguments. *)
Theorem nothing_written_outside_browser (env : Env) (st : Store)
    (s : EarningSettings) (newId now today i : string) (draft : RecordDraft)
    (patch : RecordPatch) (amount : Q) (d : option string) :
  backendMode env = SupabaseMode \/ hasWindow env = false ->
  snd (saveSettings env s st) = st
  /\ snd (saveRecord env newId now draft st) = st
  /\ snd (updateRecord env i patch st) = st
  /\ snd (deleteRecord env i st) = st
  /\ snd (createInitialAdvanceRecord env newId now today amount d st) = st
  /\ snd (clearAllData env st) = st
  /\ (backendMode env = LocalMode ->
      listRecords env st = Returned []
      /\ getSettings env st = Returned DEFAULT_SETTINGS
      /\ fst (saveRecord env newId now draft st) = Thrown ServerSide
      /\ fst (deleteRecord env i st) = Returned tt).
Proof.
  intros H.
  unfold saveSettings, saveRecord, updateRecord, deleteRecord,
    createInitialAdvanceRecord, clearAllData, listRecords, getSettings.
  destruct env as [mode win]; simpl in *.
  destruct mode; destruct H as [H|H]; try discriminate; subst;
    simpl; repeat split; intros; try discriminate; reflexivity.
Qed.

Lemma nothing_written_outside_browser_witness :
  snd (saveRecord {| backendMode := LocalMode; hasWindow := false |}
         "n" "t" (earningsOn "2024-01-02" 100) scenarioStore)
  = scenarioStore.
Proof.
  apply (nothing_written_outside_browser
           {| backendMode := LocalMode; hasWindow := false |} scenarioStore
           DEFAULT_SETTINGS "n" "t" "2024-01-01" "A"
           (earningsOn "2024-01-02" 100) emptyPatch 0 None).
  right. reflexivity.
Defined.

End StorageReadsFacts.

(* ================================================================== *)
(** ** What the mutating operations keep *)

Module StorageFrameFacts.

Import JsArray JsArrayFacts Calculations Storage LedgerSpec StorageReads.
Import LedgerProps StorageFacts SortStability StorageReadsFacts.
Local Open Scope list_scope.
Local Open Scope Q_scope.

(** *** The loop, seen as a rewrite of its [todo] part *)

Lemma recalculate_app (anchor : option DailyRecord) (s : EarningSettings)
    (d todo : list DailyRecord) :
  recalculate anchor s d todo = d ++ restampAll anchor s d todo.
Proof.
  revert d. induction todo as [|cur rest IH]; intros d; simpl.
  - now rewrite app_nil_r.
  - rewrite IH, <- app_assoc. reflexivity.
Qed.

Lemma restamp_flagged (anchor : option DailyRecord) (s : EarningSettings)
    (d : list DailyRecord) (cur : DailyRecord) :
  isInitialAdvance cur = true -> restamp anchor s d cur = cur.
Proof. intros H. unfold restamp. now rewrite H. Qed.

Lemma restampAll_keeps_flagged (anchor : option DailyRecord)
    (s : EarningSettings) (d todo : list DailyRecord) (a : DailyRecord) :
  isInitialAdvance a = true ->
  (In a (restampAll anchor s d todo) <-> In a todo).
Proof.
  intros Ha. revert d.
  induction todo as [|cur rest IH]; intros d; simpl; [reflexivity|].
  rewrite IH. split; intros [H|H]; auto; left.
  - destruct (isInitialAdvance cur) eqn:E.
    + now rewrite restamp_flagged in H.
    + exfalso. rewrite <- H in Ha. unfold restamp in Ha.
      rewrite E in Ha. simpl in Ha. congruence.
  - subst cur. now apply restamp_flagged.
Qed.

Lemma recalculate_keeps_flagged (anchor : option DailyRecord)
    (s : EarningSettings) (d todo : list DailyRecord) (a : DailyRecord) :
  isInitialAdvance a = true ->
  (In a (recalculate anchor s d todo) <-> In a (d ++ todo)).
Proof.
  intros Ha. rewrite recalculate_app, !in_app_iff.
  now rewrite restampAll_keeps_flagged.
Qed.

Lemma inputs_same_ids (l l' : list DailyRecord) :
  map inputsOf l = map inputsOf l' -> map id l = map id l'.
Proof.
  intros H. apply (f_equal (map id)) in H.
  now rewrite !map_map in H.
Qed.

Lemma inputs_same_dates (l l' : list DailyRecord) :
  map inputsOf l = map inputsOf l' -> map date l = map date l'.
Proof.
  intros H. apply (f_equal (map date)) in H.
  now rewrite !map_map in H.
Qed.

Lemma find_has_id_some (i : string) (l : list DailyRecord) :
  In i (map id l) -> exists r, find (has_id i) l = Some r /\ id r = i.
Proof.
  intros H. apply in_map_iff in H. destruct H as [x [Hx Hin]].
  destruct (find (has_id i) l) as [r|] eqn:E.
  - exists r. split; [reflexivity|].
    apply find_some in E. now apply has_id_true.
  - apply find_none with (x := x) in E; [|exact Hin].
    apply has_id_false in E. contradiction.
Qed.

(** *** saveRecord *)

Lemma saveRecord_appends (st : Store) (newId now : string)
    (draft : RecordDraft) :
  exists r,
    saveRecord localBrowser newId now draft st
    = (Returned r, setRecords (sortDesc (storedRecords st) ++ [r]) st)
    /\ id r = newId /\ createdAt r = now
    /\ date r = d_date draft
    /\ totalEarnings r = d_totalEarnings draft
    /\ advanceUsed r = d_advanceUsed draft
    /\ isInitialAdvance r = d_isInitialAdvance draft.
Proof.
  unfold saveRecord; simpl.
  rewrite listRecords_local, getInitialAdvanceRecord_local, getSettings_local.
  eexists. split; [reflexivity|]. simpl. repeat split.
Qed.

(** X7: [saveRecord] adds exactly one record and rewrites no other; with a
    fresh id [getRecord] then finds the new record, and with unique ids
    every other lookup answers as before. *)
Theorem saveRecord_adds_one (st : Store) (newId now : string)
    (draft : RecordDraft) :
  exists r st',
    saveRecord localBrowser newId now draft st = (Returned r, st')
    /\ Permutation (storedRecords st') (r :: storedRecords st)
    /\ settingsItem st' = settingsItem st
    /\ id r = newId
    /\ (~ In newId (map id (storedRecords st)) ->
        getRecord localBrowser newId st' = Returned (Some r))
    /\ (unique_ids (storedRecords st) ->
        forall j, j <> newId ->
          getRecord localBrowser j st' = getRecord localBrowser j st).
Proof.
  destruct (saveRecord_appends st newId now draft) as (r & Hsave & Hid & _).
  exists r. eexists. split; [exact Hsave|].
  rewrite storedRecords_setRecords.
  assert (Hperm : Permutation (sortDesc (storedRecords st) ++ [r])
                    (r :: storedRecords st)).
  { eapply perm_trans; [apply Permutation_app_comm|]. simpl.
    apply perm_skip, sort_by_perm. }
  assert (Hmem : forall x, In x (sortDesc (sortDesc (storedRecords st) ++ [r]))
                           <-> x = r \/ In x (storedRecords st)).
  { intros x. rewrite in_sortDesc. split; intro H.
    - apply (Permutation_in _ Hperm) in H. destruct H as [<-|H]; auto.
    - apply (Permutation_in _ (Permutation_sym Hperm)).
      destruct H as [->|H]; [now left | now right]. }
  repeat split; auto.
  - intros Hfresh. unfold getRecord.
    rewrite listRecords_local, storedRecords_setRecords. f_equal.
    apply find_unique.
    + apply Hmem. now left.
    + now apply has_id_true.
    + intros y Hy Hyid. apply Hmem in Hy. destruct Hy as [->|Hy]; auto.
      exfalso. apply Hfresh. apply has_id_true in Hyid. rewrite <- Hyid.
      now apply in_map.
  - intros Huniq j Hj. unfold getRecord.
    rewrite !listRecords_local, storedRecords_setRecords. f_equal.
    destruct (find (has_id j) (sortDesc (storedRecords st))) as [x|] eqn:E.
    + apply find_some in E. destruct E as [Hx Hxid].
      apply (proj1 (in_sortDesc x (storedRecords st))) in Hx.
      apply find_unique; auto.
      * apply Hmem. now right.
      * intros y Hy Hyid. apply Hmem in Hy.
        apply has_id_true in Hxid, Hyid.
        destruct Hy as [->|Hy]; [congruence|].
        apply (@unique_ids_eq (storedRecords st) y x); congruence.
    + apply find_none_Forall, Forall_forall. intros y Hy.
      apply Hmem in Hy. destruct Hy as [->|Hy].
      * apply has_id_false. congruence.
      * apply (find_none _ _ E). now apply in_sortDesc.
Qed.

Lemma saveRecord_adds_one_witness :
  exists r st',
    saveRecord localBrowser "C" "t3" (earningsOn "2024-01-04" 75)
      scenarioStore = (Returned r, st')
    /\ getRecord localBrowser "C" st' = Returned (Some r).
Proof.
  destruct (saveRecord_adds_one scenarioStore "C" "t3"
              (earningsOn "2024-01-04" 75))
    as (r & st' & Hsave & _ & _ & _ & Hget & _).
  exists r, st'. split; [exact Hsave|]. apply Hget.
  intros [H|[H|[H|[]]]]; discriminate.
Defined.

(** *** updateRecord *)

Lemma updateRecord_absent (st : Store) (i : string) (patch : RecordPatch) :
  (forall r, In r (storedRecords st) -> id r <> i) ->
  updateRecord localBrowser i patch st = (Thrown RecordNotFound, st).
Proof.
  intros Habsent. unfold updateRecord; simpl. rewrite listRecords_local.
  rewrite findIndex_none; [reflexivity|].
  apply Forall_forall. intros r Hr. apply has_id_false, Habsent.
  now apply in_sortDesc.
Qed.

(** The array [updateRecord] works on once the record is found. *)
Lemma updateRecord_present (st : Store) (i : string) (patch : RecordPatch) :
  (exists r, In r (storedRecords st) /\ id r = i) ->
  exists pre old post r l,
    sortDesc (storedRecords st) = pre ++ old :: post
    /\ id old = i
    /\ updateRecord localBrowser i patch st = (Returned r, setRecords l st)
    /\ id r = i /\ In r l
    /\ map inputsOf l
       = map inputsOf
           (if is_some (p_advanceUsed patch) || is_some (p_totalEarnings patch)
               || is_some (p_date patch)
            then sortAsc (pre ++ applyPatch old patch :: post)
            else pre ++ applyPatch old patch :: post)
    /\ (forall a, isInitialAdvance a = true ->
                  In a (pre ++ applyPatch old patch :: post) -> In a l).
Proof.
  intros [r0 [Hin Hid]].
  destruct (findIndex_some (has_id i) (sortDesc (storedRecords st)))
    as [n Hn].
  { exists r0. split; [now apply in_sortDesc | now apply has_id_true]. }
  destruct (findIndex_split _ _ Hn)
    as (pre & old & post & Hsplit & Hlen & Hold & _).
  apply has_id_true in Hold.
  set (upd := applyPatch old patch).
  assert (Hupd : id upd = i) by exact Hold.
  exists pre, old, post.
  unfold updateRecord; simpl.
  rewrite listRecords_local, Hn, Hsplit, <- Hlen, nth_middle_len,
    set_nth_middle.
  fold upd.
  destruct (is_some (p_advanceUsed patch) || is_some (p_totalEarnings patch)
            || is_some (p_date patch)) eqn:Ekeys.
  - set (sorted := sortAsc (pre ++ upd :: post)).
    assert (HinS : In upd sorted)
      by (apply in_sortAsc, in_elt).
    destruct (findIndex_some (has_id i) sorted) as [m Hm].
    { exists upd. split; [exact HinS | now apply has_id_true]. }
    rewrite Hm, getInitialAdvanceRecord_local, getSettings_local.
    set (result := recalculate
                     (find isInitialAdvance (sortDesc (storedRecords st)))
                     (settingsOf st) (firstn m sorted) (skipn m sorted)).
    assert (Hinputs : map inputsOf result = map inputsOf sorted).
    { unfold result. now rewrite recalculate_inputs, firstn_skipn. }
    destruct (find_has_id_some i result) as [r [Hr Hrid]].
    { rewrite (inputs_same_ids _ _ Hinputs), <- Hupd. now apply in_map. }
    rewrite Hr. exists r, result. repeat split; auto.
    + now apply find_some in Hr.
    + intros a Ha Hina. unfold result.
      apply recalculate_keeps_flagged; [exact Ha|].
      rewrite firstn_skipn. now apply in_sortAsc.
  - exists upd, (pre ++ upd :: post). repeat split; auto.
    apply in_elt.
Qed.

(** X8: [updateRecord] throws 'Record not found' and writes nothing exactly
    when no stored record has the id; otherwise it returns a stored
    record with that id and keeps the number of records. *)
Theorem updateRecord_outcome (st : Store) (i : string) (patch : RecordPatch) :
  ((forall r, In r (storedRecords st) -> id r <> i) ->
     updateRecord localBrowser i patch st = (Thrown RecordNotFound, st))
  /\ ((exists r, In r (storedRecords st) /\ id r = i) ->
      exists r st',
        updateRecord localBrowser i patch st = (Returned r, st')
        /\ id r = i
        /\ In r (storedRecords st')
        /\ settingsItem st' = settingsItem st
        /\ List.length (storedRecords st') = List.length (storedRecords st)).
Proof.
  split; [apply updateRecord_absent|].
  intros Hpresent.
  destruct (updateRecord_present st patch Hpresent)
    as (pre & old & post & r & l & Hsplit & _ & Hupd & Hid & Hin & Hinputs & _).
  exists r, (setRecords l st). repeat split; auto.
  rewrite storedRecords_setRecords.
  apply (f_equal (@List.length _)) in Hinputs.
  rewrite !length_map in Hinputs. rewrite Hinputs.
  rewrite <- (Permutation_length (sort_by_perm date_desc (storedRecords st))).
  fold sortDesc. rewrite Hsplit.
  destruct (is_some (p_advanceUsed patch) || is_some (p_totalEarnings patch)
            || is_some (p_date patch)).
  - unfold sortAsc. rewrite (Permutation_length (sort_by_perm date_asc _)).
    rewrite !length_app. reflexivity.
  - rewrite !length_app. reflexivity.
Qed.

Lemma updateRecord_outcome_witness :
  updateRecord localBrowser "nobody" (earnedPatch 300) scenarioStore
  = (Thrown RecordNotFound, scenarioStore)
  /\ exists r st',
       updateRecord localBrowser "B" (earnedPatch 300) scenarioStore
       = (Returned r, st') /\ id r = "B"%string.
Proof.
  split.
  - apply (proj1 (updateRecord_outcome scenarioStore "nobody"
                    (earnedPatch 300))).
    intros r [<-|[<-|[<-|[]]]]; discriminate.
  - destruct (proj2 (updateRecord_outcome scenarioStore "B"
                       (earnedPatch 300)))
      as (r & st' & H1 & H2 & _).
    + eexists. split; [right; right; left; reflexivity | reflexivity].
    + exists r, st'. split; assumption.
Defined.

(** X9: [updateRecord] changes the inputs of the patched record only: every
    other record keeps all its fields but [remaining], every other
    anchor is kept as it is, and when the patch carries [advanceUsed],
    [totalEarnings] or [date] the stored array ends up in date order. *)
Theorem updateRecord_keeps_others (st : Store) (i : string)
    (patch : RecordPatch) :
  (exists r, In r (storedRecords st) /\ id r = i) ->
  exists pre old post r st',
    sortDesc (storedRecords st) = pre ++ old :: post
    /\ id old = i
    /\ updateRecord localBrowser i patch st = (Returned r, st')
    /\ Permutation (map inputsOf (storedRecords st'))
         (map inputsOf (pre ++ applyPatch old patch :: post))
    /\ (forall a, isInitialAdvance a = true -> In a (pre ++ post) ->
                  In a (storedRecords st'))
    /\ (is_some (p_advanceUsed patch) || is_some (p_totalEarnings patch)
        || is_some (p_date patch) = true ->
        date_sorted (storedRecords st')).
Proof.
  intros Hpresent.
  destruct (updateRecord_present st patch Hpresent)
    as (pre & old & post & r & l & Hsplit & Hold & Hupd & _ & _
        & Hinputs & Hanchors).
  exists pre, old, post, r, (setRecords l st).
  rewrite storedRecords_setRecords. repeat split; auto.
  - rewrite Hinputs.
    destruct (is_some (p_advanceUsed patch) || is_some (p_totalEarnings patch)
              || is_some (p_date patch)).
    + apply Permutation_map, sort_by_perm.
    + apply Permutation_refl.
  - intros a Ha Hin. apply Hanchors; [exact Ha|].
    apply in_app_iff in Hin. apply in_app_iff.
    destruct Hin as [H|H]; [now left | right; now right].
  - intros Hkeys. rewrite Hkeys in Hinputs.
    apply date_sorted_same_dates
      with (l := sortAsc (pre ++ applyPatch old patch :: post)).
    + symmetry. now apply inputs_same_dates.
    + apply sortAsc_date_sorted.
Qed.

Lemma updateRecord_keeps_others_witness :
  exists r st',
    updateRecord localBrowser "A" (datePatch "2024-01-09") scenarioStore
    = (Returned r, st')
    /\ date_sorted (storedRecords st').
Proof.
  destruct (updateRecord_keeps_others scenarioStore (i := "A")
              (datePatch "2024-01-09"))
    as (pre & old & post & r & st' & _ & _ & Hupd & _ & _ & Hsorted).
  - eexists. split; [left; reflexivity | reflexivity].
  - exists r, st'. split; [exact Hupd | now apply Hsorted].
Defined.

(** *** deleteRecord *)

(** X10: [deleteRecord] removes exactly the records that carry the id: none
    of them is left, every other record keeps all its fields but
    [remaining], every other anchor is kept as it is, and the stored
    array ends up in date order. *)
Theorem deleteRecord_removes_exactly (st : Store) (i : string) :
  exists st',
    deleteRecord localBrowser i st = (Returned tt, st')
    /\ settingsItem st' = settingsItem st
    /\ Forall (fun r => id r <> i) (storedRecords st')
    /\ Permutation (map inputsOf (storedRecords st'))
         (map inputsOf (filter (fun r => negb (has_id i r))
                          (storedRecords st)))
    /\ (forall a, In a (storedRecords st) -> isInitialAdvance a = true ->
                  id a <> i -> In a (storedRecords st'))
    /\ date_sorted (storedRecords st').
Proof.
  eexists. split; [apply deleteRecord_local|].
  rewrite storedRecords_setRecords.
  set (anchor := if match find (has_id i) (sortDesc (storedRecords st)) with
                    | Some d => isInitialAdvance d
                    | None => false
                    end
                 then None
                 else find isInitialAdvance (sortDesc (storedRecords st))).
  set (F := filter (fun r => negb (has_id i r)) (sortDesc (storedRecords st))).
  assert (Hinputs : map inputsOf (recalculate anchor (settingsOf st) []
                                    (sortAsc F))
                    = map inputsOf (sortAsc F))
    by apply recalculate_inputs.
  assert (HF : forall r, In r (sortAsc F) <->
                         In r (storedRecords st) /\ id r <> i).
  { intros r. rewrite in_sortAsc. unfold F.
    rewrite filter_In, in_sortDesc, negb_true_iff, has_id_false.
    reflexivity. }
  repeat split.
  - apply Forall_forall. intros r Hr.
    apply (in_map inputsOf) in Hr. rewrite Hinputs in Hr.
    apply in_map_iff in Hr. destruct Hr as [x [Hx Hin]].
    apply HF in Hin. apply (f_equal id) in Hx. simpl in Hx.
    rewrite <- Hx. apply Hin.
  - rewrite Hinputs. apply Permutation_map.
    eapply perm_trans; [apply sort_by_perm|].
    unfold F. apply filter_perm, sort_by_perm.
  - intros a Ha Hfa Hid.
    apply recalculate_keeps_flagged; [exact Hfa|]. simpl.
    apply HF. auto.
  - apply date_sorted_same_dates with (l := sortAsc F).
    + symmetry. now apply inputs_same_dates.
    + apply sortAsc_date_sorted.
Qed.

End StorageFrameFacts.

(* ================================================================== *)
(** ** Invariants of the stored array *)

Module StorageInvariantFacts.

Import JsArray JsArrayFacts Calculations Storage LedgerSpec StorageReads.
Import LedgerProps StorageFacts SortStability StorageReadsFacts.
Import StorageFrameFacts.
Local Open Scope list_scope.
Local Open Scope Q_scope.

(** *** Counting anchors *)

Lemma anchorCount_perm (l l' : list DailyRecord) :
  Permutation l l' -> anchorCount l = anchorCount l'.
Proof.
  intros H. unfold anchorCount. apply Permutation_length.
  now apply filter_perm.
Qed.

Lemma anchorCount_map_inputs (l : list DailyRecord) :
  anchorCount (map inputsOf l) = anchorCount l.
Proof.
  unfold anchorCount. induction l as [|x t IH]; simpl; [reflexivity|].
  destruct (isInitialAdvance x); simpl; now rewrite IH.
Qed.

Lemma anchorCount_inputs (l l' : list DailyRecord) :
  Permutation (map inputsOf l) (map inputsOf l') ->
  anchorCount l = anchorCount l'.
Proof.
  intros H. rewrite <- (anchorCount_map_inputs l), <- (anchorCount_map_inputs l').
  now apply anchorCount_perm.
Qed.

Lemma anchorCount_app (l l' : list DailyRecord) :
  anchorCount (l ++ l') = (anchorCount l + anchorCount l')%nat.
Proof. unfold anchorCount. now rewrite filter_app, length_app. Qed.

Lemma anchorCount_filter (f : DailyRecord -> bool) (l : list DailyRecord) :
  (anchorCount (filter f l) <= anchorCount l)%nat.
Proof.
  unfold anchorCount. induction l as [|x t IH]; simpl; [lia|].
  destruct (f x), (isInitialAdvance x) eqn:E; simpl; try rewrite E;
    simpl; lia.
Qed.

Lemma anchorCount_none (l : list DailyRecord) :
  existsb isInitialAdvance l = false -> anchorCount l = 0%nat.
Proof.
  unfold anchorCount. induction l as [|x t IH]; simpl; [reflexivity|].
  destruct (isInitialAdvance x); simpl; [discriminate | exact IH].
Qed.

Lemma anchors_equal (l : list DailyRecord) (a b : DailyRecord) :
  at_most_one_anchor l -> In a l -> In b l ->
  isInitialAdvance a = true -> isInitialAdvance b = true -> a = b.
Proof.
  unfold at_most_one_anchor, anchorCount. intros Hle Ha Hb Hfa Hfb.
  assert (Ha' : In a (filter isInitialAdvance l)) by (apply filter_In; auto).
  assert (Hb' : In b (filter isInitialAdvance l)) by (apply filter_In; auto).
  destruct (filter isInitialAdvance l) as [|x [|y u]]; simpl in *.
  - contradiction.
  - destruct Ha' as [<-|[]], Hb' as [<-|[]]. reflexivity.
  - lia.
Qed.

Lemma anchorCount_sortDesc (l : list DailyRecord) :
  anchorCount (sortDesc l) = anchorCount l.
Proof. apply anchorCount_perm, sort_by_perm. Qed.

Lemma deleteRecord_shape (st : Store) (i : string) :
  exists l,
    deleteRecord localBrowser i st = (Returned tt, setRecords l st)
    /\ Permutation (map inputsOf l)
         (map inputsOf (filter (fun r => negb (has_id i r))
                          (storedRecords st))).
Proof.
  eexists. split; [apply deleteRecord_local|].
  rewrite recalculate_inputs. simpl. apply Permutation_map.
  eapply perm_trans; [apply sort_by_perm|].
  apply filter_perm, sort_by_perm.
Qed.

(** *** One call *)

Lemma perform_anchor_bound (c : Call) (st : Store) :
  plain_call c ->
  at_most_one_anchor (storedRecords st) ->
  at_most_one_anchor (storedRecords (perform c st)).
Proof.
  unfold at_most_one_anchor.
  destruct c as [newId now draft | i patch | i | newId now today amount d];
    simpl; intros Hplain Hle.
  - destruct (saveRecord_appends st newId now draft)
      as (r & -> & _ & _ & _ & _ & _ & Hflag).
    simpl. rewrite storedRecords_setRecords, anchorCount_app.
    rewrite anchorCount_sortDesc.
    unfold anchorCount at 2. simpl. rewrite Hflag, Hplain. simpl. lia.
  - destruct (in_dec string_dec i (map id (storedRecords st))) as [Hin|Hout].
    + apply in_map_iff in Hin. destruct Hin as [x [Hx Hin]].
      destruct (@updateRecord_present st i patch)
        as (pre & old & post & r & l & Hsplit & _ & -> & _ & _ & Hinputs & _).
      { now exists x. }
      simpl. rewrite storedRecords_setRecords.
      assert (Hcount : anchorCount l
                       = anchorCount (pre ++ applyPatch old patch :: post)).
      { apply anchorCount_inputs. rewrite Hinputs.
        destruct (is_some (p_advanceUsed patch)
                  || is_some (p_totalEarnings patch)
                  || is_some (p_date patch)).
        - apply Permutation_map, sort_by_perm.
        - apply Permutation_refl. }
      rewrite Hcount.
      rewrite <- anchorCount_sortDesc, Hsplit in Hle.
      assert (Hflag : isInitialAdvance (applyPatch old patch)
                      = isInitialAdvance old)
        by (unfold applyPatch; simpl; now rewrite Hplain).
      rewrite anchorCount_app in *. unfold anchorCount in *.
      cbn [filter] in *. rewrite Hflag.
      destruct (isInitialAdvance old); exact Hle.
    + rewrite updateRecord_absent; [exact Hle|].
      intros r Hr Hid. apply Hout. rewrite <- Hid. now apply in_map.
  - destruct (deleteRecord_shape st i) as [l [-> Hl]].
    simpl. rewrite storedRecords_setRecords.
    rewrite (anchorCount_inputs _ _ Hl).
    pose proof (anchorCount_filter (fun r => negb (has_id i r))
                  (storedRecords st)).
    lia.
  - unfold createInitialAdvanceRecord. simpl. rewrite listRecords_local.
    destruct (existsb isInitialAdvance (sortDesc (storedRecords st))) eqn:E;
      simpl; [exact Hle|].
    rewrite storedRecords_setRecords, anchorCount_app.
    rewrite (anchorCount_none _ E). unfold anchorCount. simpl. lia.
Qed.

(** X11: Through any sequence of calls whose drafts and patches do not set
    the anchor flag themselves, a store with at most one anchor keeps at
    most one anchor: only [createInitialAdvanceRecord] makes one, and
    only when there is none. *)
Theorem anchors_stay_single (calls : list Call) (st : Store) :
  Forall plain_call calls ->
  at_most_one_anchor (storedRecords st) ->
  at_most_one_anchor (storedRecords (run calls st)).
Proof.
  intros Hplain. revert st.
  induction Hplain as [|c rest Hc _ IH]; intros st Hst; [exact Hst|].
  unfold run in *. simpl. apply IH. now apply perform_anchor_bound.
Qed.

Lemma anchors_stay_single_witness :
  at_most_one_anchor
    (storedRecords
       (run [CreateAnchor "a1" "t0" "2024-06-01" 1000 (Some "2024-01-01"%string);
             AddRecord "A" "t1" (earningsOn "2024-01-02" 200);
             CreateAnchor "a2" "t2" "2024-06-01" 500 None;
             UpdateRecord "A" (datePatch "2023-12-31");
             DeleteRecord "nobody"] emptyStore)).
Proof.
  apply anchors_stay_single.
  - repeat constructor.
  - unfold at_most_one_anchor, anchorCount. simpl. lia.
Defined.

(** *** Unique ids *)

Lemma ids_of_inputs (l : list DailyRecord) :
  map id (map inputsOf l) = map id l.
Proof. rewrite map_map. reflexivity. Qed.

Lemma ids_perm_of_inputs (l l' : list DailyRecord) :
  Permutation (map inputsOf l) (map inputsOf l') ->
  Permutation (map id l) (map id l').
Proof.
  intros H. rewrite <- (ids_of_inputs l), <- (ids_of_inputs l').
  now apply Permutation_map.
Qed.

Lemma NoDup_ids_filter (f : DailyRecord -> bool) (l : list DailyRecord) :
  NoDup (map id l) -> NoDup (map id (filter f l)).
Proof.
  induction l as [|x t IH]; simpl; intros H; [constructor|].
  inversion H as [|? ? Hx Ht]; subst.
  destruct (f x); simpl; [|now apply IH].
  constructor; [|now apply IH].
  intros Hin. apply Hx. apply in_map_iff in Hin.
  destruct Hin as [y [Hy Hin]]. apply filter_In in Hin.
  rewrite <- Hy. apply in_map. apply Hin.
Qed.

Lemma unique_ids_append (l : list DailyRecord) (r : DailyRecord) :
  unique_ids l -> ~ In (id r) (map id l) ->
  unique_ids (sortDesc l ++ [r]).
Proof.
  unfold unique_ids. intros Hl Hfresh.
  apply (Permutation_NoDup (l := id r :: map id l)).
  - rewrite map_app. simpl.
    eapply perm_trans; [|apply Permutation_app_comm]. simpl.
    apply perm_skip, Permutation_map, Permutation_sym, sort_by_perm.
  - now constructor.
Qed.

Lemma perform_unique_ids (c : Call) (st : Store) :
  match c with
  | AddRecord newId _ _ => ~ In newId (map id (storedRecords st))
  | CreateAnchor newId _ _ _ _ => ~ In newId (map id (storedRecords st))
  | _ => True
  end ->
  unique_ids (storedRecords st) ->
  unique_ids (storedRecords (perform c st)).
Proof.
  destruct c as [newId now draft | i patch | i | newId now today amount d];
    simpl; intros Hfresh Hu.
  - destruct (saveRecord_appends st newId now draft)
      as (r & -> & Hid & _).
    simpl. rewrite storedRecords_setRecords.
    apply unique_ids_append; [exact Hu | now rewrite Hid].
  - destruct (in_dec string_dec i (map id (storedRecords st))) as [Hin|Hout].
    + apply in_map_iff in Hin. destruct Hin as [x [Hx Hin]].
      destruct (@updateRecord_present st i patch)
        as (pre & old & post & r & l & Hsplit & _ & -> & _ & _ & Hinputs & _).
      { now exists x. }
      simpl. rewrite storedRecords_setRecords. unfold unique_ids in *.
      assert (Hids : Permutation (map id l) (map id (storedRecords st))).
      { rewrite <- (ids_of_inputs l), Hinputs, ids_of_inputs.
        transitivity (map id (pre ++ applyPatch old patch :: post)).
        - destruct (is_some (p_advanceUsed patch)
                    || is_some (p_totalEarnings patch)
                    || is_some (p_date patch)).
          + apply Permutation_map, sort_by_perm.
          + apply Permutation_refl.
        - replace (map id (pre ++ applyPatch old patch :: post))
            with (map id (pre ++ old :: post))
            by (rewrite !map_app; reflexivity).
          rewrite <- Hsplit. apply Permutation_map, sort_by_perm. }
      apply (Permutation_NoDup (Permutation_sym Hids)). exact Hu.
    + rewrite updateRecord_absent; [exact Hu|].
      intros r Hr Hid. apply Hout. rewrite <- Hid. now apply in_map.
  - destruct (deleteRecord_shape st i) as [l [-> Hl]].
    simpl. rewrite storedRecords_setRecords. unfold unique_ids in *.
    apply (Permutation_NoDup
             (Permutation_sym (ids_perm_of_inputs _ _ Hl))).
    now apply NoDup_ids_filter.
  - unfold createInitialAdvanceRecord. simpl. rewrite listRecords_local.
    destruct (existsb isInitialAdvance (sortDesc (storedRecords st)));
      simpl; [exact Hu|].
    rewrite storedRecords_setRecords.
    now apply unique_ids_append.
Qed.

(** X12: As long as every id drawn for a new record is new to the store, no
    sequence of calls ever leaves two stored records with the same id. *)
Theorem ids_stay_unique (calls : list Call) (st : Store) :
  unique_ids (storedRecords st) ->
  ids_fresh calls st ->
  unique_ids (storedRecords (run calls st)).
Proof.
  revert st. induction calls as [|c rest IH]; intros st Hu Hfresh;
    [exact Hu|].
  destruct Hfresh as [Hc Hrest].
  unfold run in *. simpl. apply IH; [|exact Hrest].
  now apply perform_unique_ids.
Qed.

Lemma ids_stay_unique_witness :
  unique_ids
    (storedRecords
       (run [AddRecord "C" "t3" (earningsOn "2024-01-04" 75);
             UpdateRecord "A" (datePatch "2024-01-09");
             DeleteRecord "B"] scenarioStore)).
Proof.
  apply ids_stay_unique.
  - unfold unique_ids. vm_compute.
    repeat constructor; simpl; intuition discriminate.
  - simpl. repeat split. intros [H|[H|[H|[]]]]; discriminate.
Defined.

End StorageInvariantFacts.

(* ================================================================== *)
(** ** Running the recalculation again *)

Module RecalculationFacts.

Import JsArray JsArrayFacts Calculations Storage LedgerSpec StorageReads.
Import LedgerProps StorageFacts SortStability StorageReadsFacts.
Import StorageFrameFacts StorageInvariantFacts.
Local Open Scope list_scope.
Local Open Scope Q_scope.
Local Open Scope string_scope.

(** *** A sorted array is determined by its same-date groups *)

Lemma has_date_self (x : DailyRecord) : has_date (date x) x = true.
Proof. now apply has_date_true. Qed.

Lemma date_sorted_head (x : DailyRecord) (t : list DailyRecord) :
  date_sorted (x :: t) ->
  Forall (fun y => String.leb (date x) (date y) = true) t.
Proof.
  revert x. induction t as [|y u IH]; intros x [Hx Ht]; constructor.
  - apply leb_compare. exact Hx.
  - eapply Forall_impl; [|exact (IH y Ht)].
    intros z Hz. simpl in Hz. apply leb_trans with (date y); auto.
    apply leb_compare. exact Hx.
Qed.

Lemma date_sorted_tail (x : DailyRecord) (t : list DailyRecord) :
  date_sorted (x :: t) -> date_sorted t.
Proof. now intros [_ H]. Qed.

Lemma head_le_group (x y : DailyRecord) (t : list DailyRecord)
    (l : list DailyRecord) :
  date_sorted (x :: t) ->
  filter (has_date (date y)) (x :: t) = y :: l ->
  String.leb (date x) (date y) = true.
Proof.
  intros Hs Hf.
  assert (Hin : In y (x :: t)).
  { apply (proj1 (filter_In (has_date (date y)) y (x :: t))).
    rewrite Hf. now left. }
  destruct Hin as [->|Hin]; [apply leb_refl|].
  pose proof (date_sorted_head Hs) as Hhead.
  rewrite Forall_forall in Hhead. now apply Hhead.
Qed.

Lemma sorted_groups_eq (l1 l2 : list DailyRecord) :
  date_sorted l1 -> date_sorted l2 ->
  (forall d, filter (has_date d) l1 = filter (has_date d) l2) ->
  l1 = l2.
Proof.
  revert l2. induction l1 as [|x t1 IH]; intros l2 H1 H2 Hf.
  - destruct l2 as [|y t2]; [reflexivity|].
    specialize (Hf (date y)). simpl in Hf.
    rewrite has_date_self in Hf. discriminate.
  - destruct l2 as [|y t2].
    { specialize (Hf (date x)). simpl in Hf.
      rewrite has_date_self in Hf. discriminate. }
    assert (Hd : date x = date y).
    { apply String.leb_antisym.
      - pose proof (Hf (date y)) as Hy. simpl in Hy.
        rewrite has_date_self in Hy.
        eapply head_le_group; [exact H1 | exact Hy].
      - pose proof (Hf (date x)) as Hx. simpl in Hx.
        rewrite has_date_self in Hx. symmetry in Hx.
        eapply head_le_group; [exact H2 | exact Hx]. }
    assert (Hxy : x = y).
    { pose proof (Hf (date x)) as Hx. simpl in Hx.
      rewrite has_date_self in Hx. rewrite Hd in Hx at 2.
      rewrite has_date_self in Hx. now injection Hx. }
    subst y. f_equal.
    apply IH; [exact (date_sorted_tail H1) | exact (date_sorted_tail H2)|].
    intros d. specialize (Hf d). simpl in Hf.
    destruct (has_date d x); [now injection Hf | exact Hf].
Qed.

(** Listing (newest first) and sorting back returns a date-ordered array
    unchanged. *)
Lemma sortAsc_sortDesc (l : list DailyRecord) :
  date_sorted l -> sortAsc (sortDesc l) = l.
Proof.
  intros Hs. apply sorted_groups_eq; [apply sortAsc_date_sorted | exact Hs|].
  intros d. unfold sortAsc, sortDesc.
  rewrite filter_sort_by by apply has_date_not_across_asc.
  apply filter_sort_by. apply has_date_not_across_desc.
Qed.

(** *** The loop is idempotent *)

Lemma restamp_idem (anchor : option DailyRecord) (s : EarningSettings)
    (d : list DailyRecord) (cur : DailyRecord) :
  restamp anchor s d (restamp anchor s d cur) = restamp anchor s d cur.
Proof.
  unfold restamp. destruct (isInitialAdvance cur) eqn:E.
  - now rewrite E.
  - simpl. rewrite E. reflexivity.
Qed.

Lemma restampAll_idem (anchor : option DailyRecord) (s : EarningSettings)
    (d todo : list DailyRecord) :
  restampAll anchor s d (restampAll anchor s d todo)
  = restampAll anchor s d todo.
Proof.
  revert d. induction todo as [|cur rest IH]; intros d; simpl;
    [reflexivity|].
  rewrite restamp_idem, IH. reflexivity.
Qed.

Lemma recalculate_idem (anchor : option DailyRecord) (s : EarningSettings)
    (l : list DailyRecord) :
  recalculate anchor s [] (recalculate anchor s [] l)
  = recalculate anchor s [] l.
Proof. rewrite !recalculate_app. simpl. apply restampAll_idem. Qed.

(** X13: Deleting the same id a second time changes nothing: in a store with
    unique ids and at most one anchor, the store [deleteRecord] leaves
    is one it maps to itself. *)
Theorem deleteRecord_idempotent (st : Store) (i : string) :
  unique_ids (storedRecords st) ->
  at_most_one_anchor (storedRecords st) ->
  let st1 := snd (deleteRecord localBrowser i st) in
  deleteRecord localBrowser i st1 = (Returned tt, st1).
Proof.
  intros Hids Hone st1.
  set (S0 := storedRecords st) in *.
  set (L0 := sortDesc S0).
  set (a1 := if match find (has_id i) L0 with
                | Some d => isInitialAdvance d
                | None => false
                end
             then None else find isInitialAdvance L0).
  set (L1 := sortAsc (filter (fun r => negb (has_id i r)) L0)).
  set (out := recalculate a1 (settingsOf st) [] L1).
  assert (Hst1 : st1 = setRecords out st).
  { unfold st1. now rewrite deleteRecord_local. }
  assert (Hinputs : map inputsOf out = map inputsOf L1)
    by apply recalculate_inputs.
  assert (HL1 : forall r, In r L1 <-> In r S0 /\ id r <> i).
  { intros r. unfold L1. rewrite in_sortAsc. unfold L0.
    rewrite filter_In, in_sortDesc, negb_true_iff, has_id_false.
    reflexivity. }
  assert (Hflagged : forall a, isInitialAdvance a = true ->
                               (In a out <-> In a S0 /\ id a <> i)).
  { intros a Ha. unfold out.
    rewrite recalculate_keeps_flagged by exact Ha.
    simpl. apply HL1. }
  assert (Hnoid : Forall (fun r => has_id i r = false) (sortDesc out)).
  { apply Forall_forall. intros r Hr. apply has_id_false.
    apply (proj1 (in_sortDesc r out)) in Hr.
    apply (in_map inputsOf) in Hr. rewrite Hinputs in Hr.
    apply in_map_iff in Hr. destruct Hr as [x [Hx Hin]].
    apply HL1 in Hin. apply (f_equal id) in Hx. simpl in Hx.
    rewrite <- Hx. apply Hin. }
  assert (Hsorted : date_sorted out).
  { apply date_sorted_same_dates with (l := L1).
    - symmetry. now apply inputs_same_dates.
    - apply sortAsc_date_sorted. }
  assert (Hdeleted : forall y, find (has_id i) L0 = Some y ->
                               In y S0 /\ id y = i).
  { intros y E. apply find_some in E. destruct E as [Hy Hid].
    split; [now apply (proj1 (in_sortDesc y S0)) | now apply has_id_true]. }
  assert (Hanchor : find isInitialAdvance (sortDesc out) = a1).
  { destruct (find isInitialAdvance (sortDesc out)) as [a'|] eqn:E2.
    - apply find_some in E2. destruct E2 as [Ha' Hfa'].
      apply (proj1 (in_sortDesc a' out)) in Ha'.
      apply (Hflagged a' Hfa') in Ha'. destruct Ha' as [HaS Hai].
      assert (Hfind : find isInitialAdvance L0 = Some a').
      { destruct (find isInitialAdvance L0) as [x|] eqn:Ex.
        - apply find_some in Ex. destruct Ex as [Hx Hfx].
          apply (proj1 (in_sortDesc x S0)) in Hx.
          f_equal. now apply (@anchors_equal S0 x a').
        - apply find_none with (x := a') in Ex;
            [congruence | now apply in_sortDesc]. }
      unfold a1. rewrite Hfind.
      destruct (find (has_id i) L0) as [y|] eqn:Ey; [|reflexivity].
      destruct (Hdeleted y eq_refl) as [Hy Hyi].
      destruct (isInitialAdvance y) eqn:Efy; [|reflexivity].
      exfalso. apply Hai.
      rewrite (@anchors_equal S0 a' y Hone HaS Hy Hfa' Efy). exact Hyi.
    - unfold a1.
      destruct (match find (has_id i) L0 with
                | Some d => isInitialAdvance d
                | None => false
                end) eqn:Edel; [reflexivity|].
      destruct (find isInitialAdvance L0) as [x|] eqn:Ex; [|reflexivity].
      exfalso. apply find_some in Ex. destruct Ex as [Hx Hfx].
      apply (proj1 (in_sortDesc x S0)) in Hx.
      assert (Hxi : id x <> i).
      { intro Hxi. destruct (find (has_id i) L0) as [y|] eqn:Ey.
        - destruct (Hdeleted y eq_refl) as [Hy Hyi].
          assert (x = y) by (apply (@unique_ids_eq S0 x y); congruence).
          congruence.
        - apply find_none with (x := x) in Ey; [|now apply in_sortDesc].
          apply has_id_false in Ey. contradiction. }
      assert (Hxout : In x (sortDesc out))
        by (apply in_sortDesc, (Hflagged x Hfx); auto).
      apply (find_none _ _ E2) in Hxout. congruence. }
  rewrite Hst1, deleteRecord_local, storedRecords_setRecords,
    settingsOf_setRecords.
  rewrite (find_none_Forall (has_id i) Hnoid), Hanchor.
  rewrite filter_all.
  - rewrite (@sortAsc_sortDesc out Hsorted).
    assert (Hfix : recalculate a1 (settingsOf st) [] out = out)
      by (unfold out; apply recalculate_idem).
    rewrite Hfix. reflexivity.
  - eapply Forall_impl; [|exact Hnoid].
    intros r Hr. simpl in Hr. now rewrite Hr.
Qed.

Lemma deleteRecord_idempotent_witness :
  deleteRecord localBrowser "A"
    (snd (deleteRecord localBrowser "A" scenarioStore))
  = (Returned tt, snd (deleteRecord localBrowser "A" scenarioStore)).
Proof.
  apply (@deleteRecord_idempotent scenarioStore "A").
  - unfold unique_ids. vm_compute.
    repeat constructor; simpl; intuition discriminate.
  - unfold at_most_one_anchor, anchorCount. vm_compute. lia.
Defined.

(** *** The simplified flow *)

Lemma chain_balances (base base' : Q) (l : list DailyRecord) :
  base == base' ->
  Forall (fun r => advanceUsed r == 0) l ->
  Forall2 Qeq (map remaining (chainForward base l)) (balancesFrom base' l).
Proof.
  intros Hb Hl. revert base base' Hb.
  induction Hl as [|r t Hr _ IH]; intros base base' Hb; simpl;
    constructor.
  - unfold calculateRemaining.
    rewrite (proj2 (Qeq_bool_iff _ _) Hr). now rewrite Hb.
  - apply IH. unfold calculateRemaining.
    rewrite (proj2 (Qeq_bool_iff _ _) Hr). now rewrite Hb.
Qed.

(** X14: Without an anchor and with no advance drawn on any record, the
    balances [deleteRecord] leaves are the settings' advance balance
    less the earnings of every record up to and including each one, in
    date order. *)
Theorem deleteRecord_simple_flow_balances (st : Store) (i : string) :
  ~ has_anchor st ->
  (forall r, In r (storedRecords st) -> advanceUsed r == 0) ->
  Forall2 Qeq
    (map remaining (storedRecords (snd (deleteRecord localBrowser i st))))
    (balancesFrom (advanceBalance (settingsOf st))
       (sortAsc (filter (fun r => negb (has_id i r))
                   (sortDesc (storedRecords st))))).
Proof.
  intros Hno Hsimple. rewrite deleteRecord_local. cbn [snd].
  rewrite storedRecords_setRecords.
  set (L1 := sortAsc (filter (fun r => negb (has_id i r))
                        (sortDesc (storedRecords st)))).
  assert (Hin : forall r, In r L1 -> In r (storedRecords st)).
  { intros r Hr. unfold L1 in Hr.
    apply (proj1 (in_sortAsc _ _)) in Hr.
    apply (proj1 (filter_In _ _ _)) in Hr. destruct Hr as [Hr _].
    exact (proj1 (in_sortDesc _ _) Hr). }
  assert (Hfind : find isInitialAdvance (sortDesc (storedRecords st)) = None).
  { apply find_none_Forall, Forall_forall. intros r Hr.
    destruct (isInitialAdvance r) eqn:E; [|reflexivity].
    exfalso. apply Hno. exists r. split; [now apply in_sortDesc | exact E]. }
  rewrite Hfind.
  replace (if match find (has_id i) (sortDesc (storedRecords st)) with
              | Some d => isInitialAdvance d
              | None => false
              end then None else None) with (@None DailyRecord)
    by (destruct (match find (has_id i) (sortDesc (storedRecords st)) with
                  | Some d => isInitialAdvance d
                  | None => false
                  end); reflexivity).
  rewrite recalculate_no_anchor.
  - simpl. apply chain_balances; [reflexivity|].
    apply Forall_forall. intros r Hr. apply Hsimple, Hin, Hr.
  - constructor.
  - apply Forall_forall. intros r Hr. unfold unflagged.
    destruct (isInitialAdvance r) eqn:E; [|reflexivity].
    exfalso. apply Hno. exists r. split; [apply Hin, Hr | exact E].
Qed.

Lemma deleteRecord_simple_flow_balances_witness :
  Forall2 Qeq
    (map remaining
       (storedRecords (snd (deleteRecord localBrowser "nobody"
                              outOfOrderStore))))
    [0 - 50; 0 - 50 - 100].
Proof.
  apply (@deleteRecord_simple_flow_balances outOfOrderStore "nobody").
  - intros [a [Ha Hf]]. vm_compute in Ha.
    destruct Ha as [<-|[<-|[]]]; discriminate Hf.
  - intros r Hr. vm_compute in Hr.
    destruct Hr as [<-|[<-|[]]]; reflexivity.
Defined.

End RecalculationFacts.

(* ================================================================== *)
(** ** The recalculation loop against the rules *)

Module CascadeFacts.

Import JsArray JsArrayFacts Calculations CalculationsFacts Storage.
Import LedgerSpec StorageReads LedgerProps LedgerOrder.
Import StorageFacts SortStability StorageReadsFacts StorageFrameFacts.
Import StorageInvariantFacts RecalculationFacts.
Local Open Scope string_scope.
Local Open Scope Q_scope.
Local Open Scope list_scope.

(** *** Lists related element by element *)

Section RelatedSort.
Variables (A : Type) (cmp : A -> A -> comparison) (R : A -> A -> Prop).
Hypothesis cmp_R :
  forall x x' y y', R x x' -> R y y' -> cmp x y = cmp x' y'.


End RelatedSort.

Section Related.
Variables (A : Type) (R : A -> A -> Prop).






End Related.

(** *** More on the order of dates *)












(** *** Records up to their balance *)

Lemma same_inputs_refl (x : DailyRecord) : same_inputs x x.
Proof. repeat split. Qed.



Lemma same_inputs_set_remaining (x : DailyRecord) (q : Q) :
  same_inputs x (set_remaining x q).
Proof. repeat split. Qed.




Lemma ledger_in_refl (x : DailyRecord) : ledger_in x x.
Proof. split; [apply same_inputs_refl | intros _; apply Qeq_refl]. Qed.








(** *** The pass of the rules *)







Lemma restamp_in (a : option DailyRecord) (s : EarningSettings)
    (done : list DailyRecord) (r : DailyRecord) :
  ledger_in r (restamp a s done r).
Proof.
  unfold restamp. destruct (isInitialAdvance r) eqn:E.
  - apply ledger_in_refl.
  - split; [apply same_inputs_set_remaining | congruence].
Qed.

Lemma recalculate_grows (a : option DailyRecord) (s : EarningSettings)
    (done todo : list DailyRecord) :
  exists tail,
    recalculate a s done todo = done ++ tail
    /\ Forall2 ledger_in todo tail.
Proof.
  revert done. induction todo as [|r t IH]; intros done; simpl.
  - exists []. split; [now rewrite app_nil_r | constructor].
  - destruct (IH (done ++ [restamp a s done r])) as (tail & Heq & Hin).
    exists (restamp a s done r :: tail). split.
    + rewrite Heq, <- app_assoc. reflexivity.
    + constructor; [apply restamp_in | exact Hin].
Qed.



(** *** The loop and the rules, record by record *)


















(** *** The loop and the rules over a regular ledger *)







(** *** Date order of a regular record set *)

Lemma insert_asc_front_le (x : DailyRecord) (l : list DailyRecord) :
  Forall (fun r => String.leb (date x) (date r) = true) l ->
  insert_by date_asc x l = x :: l.
Proof.
  destruct 1 as [|y t Hy _]; simpl; [reflexivity|].
  apply leb_compare in Hy. unfold date_asc.
  destruct (String.compare (date x) (date y)); congruence.
Qed.





Lemma filter_comm (A : Type) (p q : A -> bool) (l : list A) :
  filter p (filter q l) = filter q (filter p l).
Proof.
  induction l as [|x t IH]; simpl; [reflexivity|].
  destruct (p x) eqn:Ep, (q x) eqn:Eq; simpl; rewrite ?Ep, ?Eq, IH;
    reflexivity.
Qed.
















(** *** What a converged store knows *)









(** *** Deleting *)




(** *** Updating *)






(** *** Saving *)






(** *** Creating the anchor *)


(** *** C1 *)




(** *** C7 *)

Lemma last_opt_cons (A : Type) (x : A) (t : list A) :
  last_opt (x :: t) <> None.
Proof.
  revert x. induction t as [|y u IH]; intros x; [discriminate|].
  exact (IH y).
Qed.

Lemma next_start_cons (base : Q) (p : DailyRecord) (d : list DailyRecord) :
  next_start base (p :: d) = next_start (remaining p) d.
Proof.
  unfold next_start. destruct d as [|y u]; [reflexivity|].
  change (last_opt (p :: y :: u)) with (last_opt (y :: u)).
  pose proof (last_opt_cons y u) as H.
  now destruct (last_opt (y :: u)).
Qed.

(** In a delta chain every record starts from the new balance of the
    record in front of it, the first from [x]. *)
Lemma chainForward_links (x : Q) (l pre post : list DailyRecord)
    (r : DailyRecord) :
  chainForward x l = pre ++ r :: post ->
  remaining r = calculateRemaining (next_start x pre) (advanceUsed r)
                  (totalEarnings r).
Proof.
  revert x pre. induction l as [|r0 t IH]; intros x pre H; simpl in H.
  - now destruct pre.
  - destruct pre as [|p pre']; simpl in H; injection H as Hhead Htail.
    + subst r. reflexivity.
    + rewrite next_start_cons. subst p. now apply IH.
Qed.

Lemma has_date_inputs (d : string) (l l' : list DailyRecord) :
  map inputsOf l = map inputsOf l' ->
  map inputsOf (filter (has_date d) l) = map inputsOf (filter (has_date d) l').
Proof.
  revert l'. induction l as [|x t IH]; intros [|y u] H; simpl in *;
    try discriminate; [reflexivity|].
  assert (Hxy : inputsOf x = inputsOf y /\ map inputsOf t = map inputsOf u).
  { remember (inputsOf x) as ix. remember (inputsOf y) as iy.
    injection H as H1 H2. now split. }
  destruct Hxy as [Hxy Htu].
  assert (Hd : has_date d x = has_date d y).
  { unfold has_date. now rewrite (f_equal date Hxy : date x = date y). }
  rewrite <- Hd. destruct (has_date d x); simpl; [rewrite Hxy; f_equal|];
    auto.
Qed.

(** C7: deleting the anchor of a store whose other records are not
    anchors and do not share its id removes it and rewrites the rest:
    the stored array ends up in date order, same-day records in the
    order they were stored in, every record with its inputs unchanged,
    and the balances form one delta chain, the first record starting
    from [Settings.advanceBalance] and every other one from the new
    balance of the record in front of it. *)
Theorem deleteRecord_anchor_fallback (st : Store) (a : DailyRecord) :
  In a (storedRecords st) ->
  isInitialAdvance a = true ->
  (forall r, In r (storedRecords st) ->
             r = a \/ (id r <> id a /\ isInitialAdvance r = false)) ->
  exists st',
    deleteRecord localBrowser (id a) st = (Returned tt, st')
    /\ storedRecords st'
       = chainForward (advanceBalance (settingsOf st))
           (sortAsc (filter (fun r => negb (has_id (id a) r))
                       (sortDesc (storedRecords st))))
    /\ Forall (fun r => id r <> id a /\ isInitialAdvance r = false)
         (storedRecords st')
    /\ (forall r, In r (storedRecords st) -> r <> a ->
          exists r', In r' (storedRecords st') /\ inputsOf r' = inputsOf r)
    /\ date_sorted (storedRecords st')
    /\ (forall d,
          map inputsOf (filter (has_date d) (storedRecords st'))
          = map inputsOf
              (filter (has_date d)
                 (filter (fun r => negb (has_id (id a) r))
                    (storedRecords st))))
    /\ (forall pre r post,
          storedRecords st' = pre ++ r :: post ->
          remaining r
          = calculateRemaining
              (next_start (advanceBalance (settingsOf st)) pre)
              (advanceUsed r) (totalEarnings r)).
Proof.
  intros Hin Hflag Hothers.
  set (L0 := sortDesc (storedRecords st)).
  set (F := filter (fun r => negb (has_id (id a) r)) L0).
  assert (HF : forall r, In r F <->
                         In r (storedRecords st) /\ id r <> id a).
  { intros r. unfold F. rewrite filter_In. unfold L0.
    rewrite in_sortDesc, negb_true_iff, has_id_false. reflexivity. }
  assert (HFok : Forall (fun r => id r <> id a /\ isInitialAdvance r = false)
                   (sortAsc F)).
  { apply Forall_sort_by. apply Forall_forall. intros r Hr.
    apply HF in Hr. destruct Hr as [Hr Hid].
    destruct (Hothers r Hr) as [->|H]; [congruence | exact H]. }
  assert (Hdel : match find (has_id (id a)) L0 with
                 | Some d => isInitialAdvance d
                 | None => false
                 end = true).
  { destruct (find (has_id (id a)) L0) as [y|] eqn:E.
    - apply find_some in E. destruct E as [Hy Hid].
      apply (proj1 (in_sortDesc y (storedRecords st))) in Hy.
      apply has_id_true in Hid.
      destruct (Hothers y Hy) as [->|[Hne _]]; [exact Hflag | congruence].
    - apply find_none with (x := a) in E; [|now apply in_sortDesc].
      apply has_id_false in E. congruence. }
  eexists. split; [apply deleteRecord_local|].
  rewrite storedRecords_setRecords. fold L0. fold F. rewrite Hdel.
  assert (Hout : recalculate None (settingsOf st) [] (sortAsc F)
                 = chainForward (advanceBalance (settingsOf st)) (sortAsc F)).
  { rewrite recalculate_no_anchor; [reflexivity | constructor |].
    eapply Forall_impl; [|exact HFok]. now intros r [_ Hr]. }
  rewrite Hout. split; [reflexivity|]. split; [|split; [|split; [|split]]].
  - apply Forall_chainForward; [|exact HFok]. now intros r y H.
  - intros r Hr Hne.
    assert (HrF : In r (sortAsc F)).
    { apply in_sortAsc, HF. split; [exact Hr|].
      destruct (Hothers r Hr) as [->|[H _]]; [congruence | exact H]. }
    apply (in_map inputsOf) in HrF.
    rewrite <- (chainForward_inputs (advanceBalance (settingsOf st))) in HrF.
    apply in_map_iff in HrF. destruct HrF as [r' [Heq Hr']].
    now exists r'.
  - apply date_sorted_same_dates with (l := sortAsc F);
      [|apply sortAsc_date_sorted].
    symmetry. apply chainForward_dates.
  - intros d.
    rewrite (@has_date_inputs d _ _
               (chainForward_inputs (advanceBalance (settingsOf st))
                  (sortAsc F))).
    f_equal. unfold sortAsc.
    rewrite filter_sort_by by apply has_date_not_across_asc.
    unfold F. rewrite filter_comm, (filter_comm (has_date d)). f_equal.
    unfold L0, sortDesc. apply filter_sort_by.
    apply has_date_not_across_desc.
  - intros pre r post Hsplit. eapply chainForward_links. exact Hsplit.
Qed.

Lemma deleteRecord_anchor_fallback_witness :
  exists st',
    deleteRecord localBrowser "anchor" shuffledStore = (Returned tt, st')
    /\ map (fun r => (id r, remaining r)) (storedRecords st')
       = [("r2", 500 - 50); ("r1", 500 - 50 - 100)]
    /\ date_sorted (storedRecords st').
Proof.
  destruct (@deleteRecord_anchor_fallback shuffledStore
              (nth 1 (storedRecords shuffledStore)
                 (mkRecord "" "" 0 0 0 0 0 0 0 "" "" "" false)))
    as (st' & Hdel & Hrec & _ & _ & Hsorted & _).
  - right; left; reflexivity.
  - reflexivity.
  - intros r [<-|[<-|[<-|[]]]];
      [right; split; [discriminate | reflexivity]
      | left; reflexivity
      | right; split; [discriminate | reflexivity]].
  - exists st'. split; [exact Hdel|].
    split; [rewrite Hrec; reflexivity | exact Hsorted].
Defined.








End CascadeFacts.

(* ================================================================== *)
(** ** More ledger arithmetic *)

Module CalculationsMoreFacts.

Import Calculations CalculationsFacts.
Local Open Scope Q_scope.

(** X15: Booking pay is never negative when the rate is not: negative counts
    are clamped to 0, and so is the default rate of 50 applied. *)
Theorem calculateBookingPay_nonneg (b r : Q) :
  0 <= r ->
  0 <= calculateBookingPay b (Some r)
  /\ 0 <= calculateBookingPay b None
  /\ (0 <= b -> calculateBookingPay b None = b * 50).
Proof.
  intros Hr. unfold calculateBookingPay.
  destruct (Qltb b 0) eqn:E.
  - repeat split; try apply Qle_refl.
    intros Hb. apply Qltb_lt in E. exfalso. exact (Qlt_not_le _ _ E Hb).
  - apply Qltb_ge in E. repeat split.
    + now apply Qmult_le_0_compat.
    + apply Qmult_le_0_compat; [exact E | discriminate].
Qed.

Lemma calculateBookingPay_nonneg_witness :
  0 <= calculateBookingPay (-4) (Some (75 # 2)).
Proof.
  apply (calculateBookingPay_nonneg (-4) (r := 75 # 2)). discriminate.
Defined.

End CalculationsMoreFacts.

(* ================================================================== *)
(** ** The chat history *)

Module ChatFacts.

Import JsArray JsArrayFacts Storage ChatStorage.
Local Open Scope list_scope.

Lemma lastN_length (A : Type) (n : nat) (l : list A) :
  List.length (lastN n l) = Nat.min (List.length l) n.
Proof. unfold lastN. rewrite length_skipn. lia. Qed.

Lemma lastN_suffix (A : Type) (n : nat) (l : list A) :
  l = firstn (List.length l - n) l ++ lastN n l.
Proof. unfold lastN. symmetry. apply firstn_skipn. Qed.

Lemma lastN_short (A : Type) (n : nat) (l : list A) :
  (List.length l <= n)%nat -> lastN n l = l.
Proof.
  intros H. unfold lastN.
  replace (List.length l - n)%nat with 0%nat by lia. reflexivity.
Qed.

Lemma lastN_snoc (A : Type) (n : nat) (l : list A) (x : A) :
  lastN (S n) (l ++ [x]) = lastN n l ++ [x].
Proof.
  unfold lastN. rewrite length_app. simpl.
  replace (List.length l + 1 - S n)%nat with (List.length l - n)%nat by lia.
  rewrite skipn_app.
  replace (List.length l - n - List.length l)%nat with 0%nat by lia.
  reflexivity.
Qed.

(** X18: In the browser, with a write that goes through, [addChatMessage]
    stores the old history followed by the new message, cut down to its
    last 100 entries: the new message is always the last one stored,
    nothing is dropped below 100 messages, and never more than 100
    remain. *)
Theorem addChatMessage_keeps_last_100 (cs : ChatStore) (newId now : string)
    (r : Role) (text : string) :
  let old := getChatHistory true cs in
  let m := fst (addChatMessage true true newId now r text cs) in
  let new := getChatHistory true
               (snd (addChatMessage true true newId now r text cs)) in
  m = {| msg_id := newId; role := r; content := text; timestamp := now |}
  /\ new = lastN 100 (old ++ [m])
  /\ List.length new = Nat.min (S (List.length old)) 100
  /\ (List.length new <= 100)%nat
  /\ last_opt new = Some m
  /\ (exists dropped, old ++ [m] = dropped ++ new)
  /\ ((List.length old < 100)%nat -> new = old ++ [m]).
Proof.
  intros old m new.
  assert (Hnew : new = lastN 100 (old ++ [m])) by reflexivity.
  split; [reflexivity|]. split; [exact Hnew|].
  split; [|split; [|split; [|split]]].
  - rewrite Hnew, lastN_length, length_app. simpl. lia.
  - rewrite Hnew, lastN_length. lia.
  - rewrite Hnew. change 100%nat with (S 99).
    rewrite lastN_snoc. apply last_opt_snoc.
  - exists (firstn (List.length (old ++ [m]) - 100) (old ++ [m])).
    rewrite Hnew. apply lastN_suffix.
  - intros Hlt. rewrite Hnew. apply lastN_short.
    rewrite length_app. simpl. lia.
Qed.

(** X19: A stored history that is missing, does not parse or is not an array
    reads as empty, and the next message starts a new history; without a
    window, or when the write fails, nothing is stored. *)
Theorem chat_history_edge_cases (cs : ChatStore) (newId now : string)
    (r : Role) (text : string) (w ok : bool) :
  (cs = Missing \/ cs = Unparsable \/ cs = Parsed NotAnArray ->
     getChatHistory w cs = []
     /\ getChatHistory true
          (snd (addChatMessage true true newId now r text cs))
        = [fst (addChatMessage true true newId now r text cs)])
  /\ getChatHistory false cs = []
  /\ snd (addChatMessage false ok newId now r text cs) = cs
  /\ snd (addChatMessage w false newId now r text cs) = cs
  /\ clearChatHistory false ok cs = cs
  /\ getChatHistory w (clearChatHistory true true cs) = [].
Proof.
  repeat split.
  - destruct H as [-> | [-> | ->]]; now destruct w.
  - destruct H as [-> | [-> | ->]]; reflexivity.
  - unfold addChatMessage, saveChatHistory. now destruct w.
  - now destruct w.
Qed.

Lemma chat_history_edge_cases_witness :
  getChatHistory true (Parsed NotAnArray) = [].
Proof.
  apply (proj1 (chat_history_edge_cases (Parsed NotAnArray) "m1" "t1"
                  UserRole "hello" true true)).
  right; right; reflexivity.
Defined.

End ChatFacts.

(* ================================================================== *)
(** ** The API routes *)

Module RouteFacts.

Import JsArray Calculations Storage StorageReads ChatStorage Routes.
Import LedgerSpec.
Local Open Scope string_scope.

(** X20: The n8n webhook never writes to the store, and its 'add_record'
    action never adds anything: with record data it always answers 500,
    with the message of the error [saveRecord] throws on the server. *)
Theorem webhook_never_stores
    (gemini : string -> list DailyRecord -> list ChatMessage -> string + string)
    (mode : BackendMode) (newId now : string) (body : WebhookBody)
    (st : Store) :
  snd (webhookPOST gemini mode newId now body st) = st
  /\ (wb_action body = ActionText "add_record" ->
      forall data, wb_data body = Some data ->
        fst (webhookPOST gemini mode newId now body st)
        = failed 500
            (match mode with
             | LocalMode => "Cannot save records on server side"
             | SupabaseMode => "Supabase mode not yet implemented"
             end))
  /\ (wb_action body = ActionText "add_record" ->
      wb_data body = None ->
      fst (webhookPOST gemini mode newId now body st)
      = failed 400 "Missing record data").
Proof.
  unfold webhookPOST. repeat split.
  - destruct (wb_action body) as [action|shown]; [|reflexivity].
    repeat match goal with
           | |- context [if String.eqb action ?s then _ else _] =>
               destruct (String.eqb action s)
           end;
      try reflexivity.
    + now destruct mode.
    + now destruct mode.
    + destruct (wb_data body); [|reflexivity]. now destruct mode.
    + destruct (wb_data body) as [data|]; [|reflexivity].
      destruct (String.eqb (wd_query data) ""); [reflexivity|].
      destruct mode; simpl; [|reflexivity].
      now destruct (gemini (wd_query data) [] (wd_chatHistory data)).
  - intros -> data ->. now destruct mode.
  - intros -> ->. reflexivity.
Qed.

Lemma webhook_never_stores_witness :
  fst (webhookPOST (fun _ _ _ => inr "hi") LocalMode "n" "t"
         {| wb_action := ActionText "add_record";
            wb_data := Some {| wd_record := earningsOn "2024-01-02" 100;
                               wd_query := ""; wd_chatHistory := [] |} |}
         scenarioStore)
  = failed 500 "Cannot save records on server side".
Proof.
  apply (proj1 (proj2 (webhook_never_stores (fun _ _ _ => inr "hi")
                         LocalMode "n" "t"
                         {| wb_action := ActionText "add_record";
                            wb_data := Some {| wd_record :=
                                                 earningsOn "2024-01-02" 100;
                                               wd_query := "";
                                               wd_chatHistory := [] |} |}
                         scenarioStore)) eq_refl _ eq_refl).
Defined.

(** X21: In local mode the webhook sees no data at all: 'get_records'
    answers with an empty list, 'get_settings' with the default
    settings, and 'ai_query' hands Gemini an empty record list. *)
Theorem webhook_local_reads_nothing
    (gemini : string -> list DailyRecord -> list ChatMessage -> string + string)
    (newId now : string) (data : option WebhookData) (st : Store) :
  fst (webhookPOST gemini LocalMode newId now
         {| wb_action := ActionText "get_records"; wb_data := data |} st)
  = ok (RecordsPayload [])
  /\ fst (webhookPOST gemini LocalMode newId now
            {| wb_action := ActionText "get_settings"; wb_data := data |} st)
     = ok (SettingsPayload DEFAULT_SETTINGS)
  /\ (forall d, data = Some d -> wd_query d <> "" ->
        fst (webhookPOST gemini LocalMode newId now
               {| wb_action := ActionText "ai_query"; wb_data := data |} st)
        = match gemini (wd_query d) [] (wd_chatHistory d) with
          | inr aiResponse => ok (AiPayload aiResponse)
          | inl m => failed 500 (orDefault m "Internal server error")
          end).
Proof.
  repeat split.
  intros d -> Hq. unfold webhookPOST. simpl.
  apply String.eqb_neq in Hq. rewrite Hq.
  now destruct (gemini (wd_query d) [] (wd_chatHistory d)).
Qed.

(** X22: In local mode the Sheets sync route never exports a stored record:
    whatever the store holds, it syncs an empty list with the default
    settings and reports 0 records. *)
Theorem sync_route_exports_nothing
    (sync : list DailyRecord -> EarningSettings -> option string)
    (st : Store) :
  syncPOST sync LocalMode st
  = match sync [] DEFAULT_SETTINGS with
    | Some m => failed 500 (orDefault m "Failed to sync")
    | None => ok (MessagePayload "Synced 0 records to Google Sheets")
    end.
Proof.
  unfold syncPOST. simpl. now destruct (sync [] DEFAULT_SETTINGS).
Qed.

End RouteFacts.

(* ================================================================== *)
(** ** The anchor and the components *)

Module ComponentFacts.

Import JsArray JsArrayFacts Calculations CalculationsFacts Storage LedgerSpec.
Import StorageReads LedgerProps StorageFacts SortStability StorageReadsFacts.
Import StorageFrameFacts StorageInvariantFacts Components.
Local Open Scope list_scope.
Local Open Scope Q_scope.
Local Open Scope string_scope.

(** *** Creating and finding the anchor *)

Lemma getInitialAdvanceRecord_none (st : Store) :
  ~ has_anchor st ->
  getInitialAdvanceRecord localBrowser st = Returned None.
Proof.
  intros Hno. rewrite getInitialAdvanceRecord_local. f_equal.
  apply find_none_Forall, Forall_forall. intros r Hr.
  destruct (isInitialAdvance r) eqn:E; [|reflexivity].
  exfalso. apply Hno. exists r. split; [now apply in_sortDesc | exact E].
Qed.

Lemma getInitialAdvanceRecord_some (st : Store) :
  has_anchor st ->
  exists a, getInitialAdvanceRecord localBrowser st = Returned (Some a)
            /\ In a (storedRecords st) /\ isInitialAdvance a = true.
Proof.
  intros [x [Hx Hfx]]. rewrite getInitialAdvanceRecord_local.
  destruct (find isInitialAdvance (sortDesc (storedRecords st)))
    as [a|] eqn:E.
  - exists a. apply find_some in E. destruct E as [Ha Hfa].
    repeat split; auto. now apply (proj1 (in_sortDesc a (storedRecords st))).
  - apply find_none with (x := x) in E; [congruence | now apply in_sortDesc].
Qed.

Lemma create_then_get (st : Store) (newId now today : string) (amount : Q)
    (d : option string) :
  ~ has_anchor st ->
  exists a,
    createInitialAdvanceRecord localBrowser newId now today amount d st
    = (Returned a, setRecords (sortDesc (storedRecords st) ++ [a]) st)
    /\ remaining a = amount /\ isInitialAdvance a = true
    /\ getInitialAdvanceRecord localBrowser
         (setRecords (sortDesc (storedRecords st) ++ [a]) st)
       = Returned (Some a).
Proof.
  intros Hno. unfold createInitialAdvanceRecord; simpl.
  rewrite listRecords_local.
  destruct (existsb isInitialAdvance (sortDesc (storedRecords st))) eqn:E.
  { apply existsb_anchor_iff in E. contradiction. }
  eexists. split; [reflexivity|]. split; [reflexivity|].
  split; [reflexivity|].
  rewrite getInitialAdvanceRecord_local, storedRecords_setRecords. f_equal.
  apply find_unique.
  - apply in_sortDesc, in_app_iff. right. now left.
  - reflexivity.
  - intros y Hy Hfy. apply (proj1 (in_sortDesc _ _)) in Hy.
    apply in_app_iff in Hy. destruct Hy as [Hy|[<-|[]]]; [|reflexivity].
    exfalso. apply Hno. exists y.
    split; [exact (proj1 (in_sortDesc _ _) Hy) | exact Hfy].
Qed.

(** X23: [createInitialAdvanceRecord] refuses exactly when
    [getInitialAdvanceRecord] finds an anchor; when it goes through,
    [getInitialAdvanceRecord] returns the record it made. *)
Theorem anchor_create_and_get (st : Store) (newId now today : string)
    (amount : Q) (d : option string) :
  (fst (createInitialAdvanceRecord localBrowser newId now today amount d st)
   = Thrown InitialAdvanceExists
   <-> exists a, getInitialAdvanceRecord localBrowser st = Returned (Some a))
  /\ (getInitialAdvanceRecord localBrowser st = Returned None ->
      exists a st',
        createInitialAdvanceRecord localBrowser newId now today amount d st
        = (Returned a, st')
        /\ remaining a = amount
        /\ getInitialAdvanceRecord localBrowser st' = Returned (Some a)).
Proof.
  assert (Hdec : has_anchor st \/ ~ has_anchor st).
  { destruct (existsb isInitialAdvance (sortDesc (storedRecords st))) eqn:E.
    - left. now apply existsb_anchor_iff.
    - right. intro H. apply existsb_anchor_iff in H. congruence. }
  split; [split|].
  - intros Hthrown. destruct Hdec as [Hyes|Hno].
    + destruct (getInitialAdvanceRecord_some Hyes) as [a [Ha _]].
      now exists a.
    + destruct (create_then_get newId now today amount d Hno)
        as (a & Hc & _). rewrite Hc in Hthrown. discriminate.
  - intros [a Ha]. destruct Hdec as [Hyes|Hno].
    + unfold createInitialAdvanceRecord; simpl. rewrite listRecords_local.
      apply existsb_anchor_iff in Hyes. now rewrite Hyes.
    + rewrite (getInitialAdvanceRecord_none Hno) in Ha. discriminate.
  - intros Hnone. destruct Hdec as [Hyes|Hno].
    + destruct (getInitialAdvanceRecord_some Hyes) as [a [Ha _]].
      rewrite Ha in Hnone. discriminate.
    + destruct (create_then_get newId now today amount d Hno)
        as (a & Hc & Hrem & _ & Hget).
      exists a. eexists. repeat split; eauto.
Qed.

Lemma anchor_create_and_get_witness :
  exists a st',
    createInitialAdvanceRecord localBrowser "a1" "t0" "2024-06-01" 750 None
      emptyStore = (Returned a, st')
    /\ remaining a = 750
    /\ getInitialAdvanceRecord localBrowser st' = Returned (Some a).
Proof.
  apply (proj2 (anchor_create_and_get emptyStore "a1" "t0" "2024-06-01"
                  750 None)).
  reflexivity.
Defined.

(** *** Saving the settings card *)

(** X24: In the browser the settings card never fails: the form's values
    become the settings; an anchor already in the store is left alone
    even if the card believes there is none; and with no anchor, a
    positive amount and the card not believing in one, an anchor with
    that amount is created, so that it agrees with the advance balance
    of the settings. *)
Theorem submitEarningsSettings_outcome (st : Store) (newId now today : string)
    (believesAnchor : bool) (data : EarningsSettingsFormData) :
  exists st',
    submitEarningsSettings localBrowser newId now today believesAnchor data st
    = (Returned tt, st')
    /\ getSettings localBrowser st'
       = Returned {| s_basePay := fixedDailyInquiryPay data;
                     s_perBooking := perAppointmentRate data;
                     advanceBalance := initialAdvanceAmount data |}
    /\ (has_anchor st -> storedRecords st' = storedRecords st)
    /\ (believesAnchor = true \/ initialAdvanceAmount data <= 0 ->
        storedRecords st' = storedRecords st)
    /\ (~ has_anchor st -> believesAnchor = false ->
        0 < initialAdvanceAmount data ->
        exists a,
          getInitialAdvanceRecord localBrowser st' = Returned (Some a)
          /\ remaining a = initialAdvanceAmount data
          /\ Permutation (storedRecords st') (a :: storedRecords st)).
Proof.
  set (settings := {| s_basePay := fixedDailyInquiryPay data;
                      s_perBooking := perAppointmentRate data;
                      advanceBalance := initialAdvanceAmount data |}).
  set (st1 := {| settingsItem := Parsed settings;
                 recordsItem := recordsItem st |}).
  assert (Hst1 : storedRecords st1 = storedRecords st) by reflexivity.
  assert (Hanchor1 : has_anchor st1 <-> has_anchor st)
    by (unfold has_anchor; now rewrite Hst1).
  assert (Hdec : has_anchor st \/ ~ has_anchor st).
  { destruct (existsb isInitialAdvance (sortDesc (storedRecords st))) eqn:E.
    - left. now apply existsb_anchor_iff.
    - right. intro H. apply existsb_anchor_iff in H. congruence. }
  unfold submitEarningsSettings. simpl. fold settings. fold st1.
  destruct believesAnchor; simpl.
  { exists st1. split; [reflexivity|]. split; [reflexivity|].
    split; [auto|]. split; [auto|]. intros _ H. discriminate. }
  destruct (Qltb 0 (initialAdvanceAmount data)) eqn:Eamount.
  - apply Qltb_lt in Eamount.
    destruct Hdec as [Hyes|Hno].
    + assert (Hex : existsb isInitialAdvance (sortDesc (storedRecords st1))
                    = true) by now apply existsb_anchor_iff, Hanchor1.
      unfold createInitialAdvanceRecord. simpl.
      rewrite listRecords_local, Hex. simpl.
      exists st1. split; [reflexivity|]. split; [reflexivity|].
      split; [auto|]. split; [auto|]. intros Hno. contradiction.
    + assert (Hno1 : ~ has_anchor st1) by (intro H; now apply Hanchor1 in H).
      destruct (create_then_get newId now today (initialAdvanceAmount data)
                  (Some (initialAdvanceDate data)) Hno1)
        as (a & Hc & Hrem & _ & Hget).
      rewrite Hc. eexists. split; [reflexivity|]. split; [reflexivity|].
      split; [|split].
      * intros Hyes. contradiction.
      * intros [H|H]; [discriminate|].
        exfalso. exact (Qlt_not_le _ _ Eamount H).
      * intros _ _ _. exists a. split; [exact Hget|]. split; [exact Hrem|].
        rewrite storedRecords_setRecords, Hst1.
        eapply perm_trans; [apply Permutation_app_comm|]. simpl.
        apply perm_skip, sort_by_perm.
  - apply Qltb_ge in Eamount.
    exists st1. split; [reflexivity|]. split; [reflexivity|].
    split; [auto|]. split; [auto|].
    intros _ _ Hpos. exfalso. exact (Qlt_not_le _ _ Hpos Eamount).
Qed.

(** *** Adding an entry *)

(** The balance [saveRecord] starts a new record from depends on the
    store and on the draft's date only. *)
Lemma saveRecord_start_by_date (st : Store) (d : string) :
  exists start,
    forall newId now draft, d_date draft = d ->
      exists r,
        saveRecord localBrowser newId now draft st
        = (Returned r, setRecords (sortDesc (storedRecords st) ++ [r]) st)
        /\ remaining r
           = calculateRemaining start (d_advanceUsed draft)
               (d_totalEarnings draft)
        /\ inputsOf r
           = inputsOf
               {| id := newId; date := d_date draft;
                  basePay := d_basePay draft; bookings := d_bookings draft;
                  bookingPay := d_bookingPay draft;
                  inquiryPay := d_inquiryPay draft;
                  totalEarnings := d_totalEarnings draft;
                  advanceUsed := d_advanceUsed draft; remaining := 0;
                  notes := d_notes draft; action := d_action draft;
                  createdAt := now;
                  isInitialAdvance := d_isInitialAdvance draft |}.
Proof.
  exists (match find isInitialAdvance (sortDesc (storedRecords st)) with
          | Some ia =>
              mostRecentRemaining
                (filter (fun r => String.ltb (date r) d
                                  && negb (isInitialAdvance r))
                   (sortDesc (storedRecords st)))
                (remaining ia)
          | None =>
              mostRecentRemaining
                (filter (fun r => String.ltb (date r) d)
                   (sortDesc (storedRecords st)))
                (advanceBalance (settingsOf st))
          end).
  intros newId now draft <-. unfold saveRecord; simpl.
  rewrite listRecords_local, getInitialAdvanceRecord_local, getSettings_local.
  eexists. split; [reflexivity|]. split; reflexivity.
Qed.

Lemma bookingPay_orZero (b r : Q) :
  calculateBookingPay (orZero b) (Some r) == calculateBookingPay b (Some r).
Proof.
  unfold orZero. destruct (Qeq_bool b 0) eqn:E; [|reflexivity].
  apply Qeq_bool_iff in E. unfold calculateBookingPay.
  assert (H0 : Qltb 0 0 = false) by reflexivity.
  assert (Hb : Qltb b 0 = false).
  { apply Qltb_ge. rewrite E. apply Qle_refl. }
  rewrite H0, Hb. now rewrite E.
Qed.

(** X25: An entry saved from the daily-entry card is a plain record with no
    advance drawn, so its balance is the starting balance less the day's
    earnings: the fixed base pay plus the rate for every booking.  The
    starting balance depends on the store and the date only. *)
Theorem submitDailyEntry_reduces_balance (st : Store) (d : string) :
  exists start,
    forall settings newId now booked text, 0 <= booked ->
      exists r st',
        submitDailyEntry localBrowser newId now settings
          (mkEntryForm d booked text) st = (Returned r, st')
        /\ remaining r
           == start - (s_basePay settings + booked * s_perBooking settings)
        /\ totalEarnings r
           == s_basePay settings + booked * s_perBooking settings
        /\ advanceUsed r = 0
        /\ isInitialAdvance r = false
        /\ date r = d.
Proof.
  destruct (saveRecord_start_by_date st d) as [start Hstart].
  exists start. intros settings newId now booked text Hbooked.
  destruct (Hstart newId now
              (dailyEntryRecord settings (mkEntryForm d booked text)) eq_refl)
    as (r & Hsave & Hrem & Hinputs).
  exists r. eexists. split; [exact Hsave|].
  assert (Hpay : calculateBookingPay (orZero booked)
                   (Some (s_perBooking settings))
                 == booked * s_perBooking settings).
  { rewrite bookingPay_orZero. unfold calculateBookingPay.
    now rewrite (proj2 (Qltb_ge booked 0) Hbooked). }
  assert (Hte : totalEarnings r
                = s_basePay settings
                  + calculateBookingPay (orZero booked)
                      (Some (s_perBooking settings)))
    by exact (f_equal totalEarnings Hinputs).
  repeat split.
  - rewrite Hrem. simpl. unfold calculateRemaining. simpl.
    now rewrite Hpay.
  - rewrite Hte. now rewrite Hpay.
  - exact (f_equal advanceUsed Hinputs).
  - exact (f_equal isInitialAdvance Hinputs).
  - exact (f_equal date Hinputs).
Qed.

Lemma submitDailyEntry_reduces_balance_witness :
  exists start r st' r2 st2,
    submitDailyEntry localBrowser "C" "t3" DEFAULT_SETTINGS
      (mkEntryForm "2024-01-04" 3 "") scenarioStore = (Returned r, st')
    /\ remaining r == start - (200 + 3 * 50)
    /\ submitDailyEntry localBrowser "D" "t4" (mkSettings 300 80 0)
         (mkEntryForm "2024-01-04" 2 "") scenarioStore = (Returned r2, st2)
    /\ remaining r2 == start - (300 + 2 * 80).
Proof.
  destruct (submitDailyEntry_reduces_balance scenarioStore "2024-01-04")
    as [start H].
  destruct (H DEFAULT_SETTINGS "C" "t3" 3 "") as (r & st' & Hs & Hr & _);
    [discriminate|].
  destruct (H (mkSettings 300 80 0) "D" "t4" 2 "")
    as (r2 & st2 & Hs2 & Hr2 & _); [discriminate|].
  exists start, r, st', r2, st2.
  split; [exact Hs|]. split; [exact Hr|]. split; [exact Hs2 | exact Hr2].
Defined.

(** X26: The chat assistant's 'add_record' stamps the same numbers as the
    daily-entry card does with the stored settings: it adds the base pay
    through [calculateTotalEarnings] with 0 inquiry pay, which comes to
    the same total and the same balance. *)
Theorem aiAddRecord_agrees_with_card (st : Store) (newId now : string)
    (data : EntryFormData) :
  exists r1 st1 r2 st2,
    aiAddRecord localBrowser newId now data st = (Returned r1, st1)
    /\ submitDailyEntry localBrowser newId now (settingsOf st) data st
       = (Returned r2, st2)
    /\ id r1 = id r2 /\ date r1 = date r2 /\ bookings r1 = bookings r2
    /\ notes r1 = notes r2 /\ advanceUsed r1 = advanceUsed r2
    /\ bookingPay r1 == bookingPay r2
    /\ totalEarnings r1 == totalEarnings r2
    /\ remaining r1 == remaining r2.
Proof.
  destruct (saveRecord_start_by_date st (fd_date data)) as [start Hstart].
  unfold aiAddRecord, submitDailyEntry. rewrite getSettings_local.
  match goal with
  | |- context [saveRecord localBrowser newId now ?d1 st = (Returned _, _)
                /\ saveRecord localBrowser newId now ?d2 st = _ /\ _] =>
      destruct (Hstart newId now d1 eq_refl) as (r1 & H1 & Hrem1 & Hin1);
      destruct (Hstart newId now d2 eq_refl) as (r2 & H2 & Hrem2 & Hin2)
  end.
  exists r1. eexists. exists r2. eexists.
  split; [exact H1|]. split; [exact H2|].
  pose proof (bookingPay_orZero (fd_bookedAppointments data)
                (s_perBooking (settingsOf st))) as Hpay.
  assert (Hbp1 := f_equal bookingPay Hin1).
  assert (Hbp2 := f_equal bookingPay Hin2).
  assert (Hte1 := f_equal totalEarnings Hin1).
  assert (Hte2 := f_equal totalEarnings Hin2).
  simpl in Hbp1, Hbp2, Hte1, Hte2.
  assert (Htotal : totalEarnings r1 == totalEarnings r2).
  { rewrite Hte1, Hte2. unfold calculateTotalEarnings. rewrite Hpay. lra. }
  assert (Hid1 := f_equal id Hin1). assert (Hid2 := f_equal id Hin2).
  assert (Hd1 := f_equal date Hin1). assert (Hd2 := f_equal date Hin2).
  assert (Hb1 := f_equal bookings Hin1).
  assert (Hb2 := f_equal bookings Hin2).
  assert (Hn1 := f_equal notes Hin1). assert (Hn2 := f_equal notes Hin2).
  assert (Ha1 := f_equal advanceUsed Hin1).
  assert (Ha2 := f_equal advanceUsed Hin2).
  simpl in Hid1, Hid2, Hd1, Hd2, Hb1, Hb2, Hn1, Hn2, Ha1, Ha2.
  split; [congruence|]. split; [congruence|]. split; [congruence|].
  split; [congruence|]. split; [congruence|].
  split; [|split].
  - rewrite Hbp1, Hbp2. now rewrite Hpay.
  - exact Htotal.
  - rewrite Hrem1, Hrem2. simpl. unfold calculateRemaining. simpl.
    rewrite <- Hte1, <- Hte2. now rewrite Htotal.
Qed.

(** *** Deleting by date *)

Lemma deleteRecord_no_id_left (st : Store) (i : string) :
  Forall (fun r => id r <> i)
    (storedRecords (snd (deleteRecord localBrowser i st))).
Proof.
  destruct (deleteRecord_shape st i) as [l [-> Hl]]. simpl.
  rewrite storedRecords_setRecords.
  apply Forall_forall. intros r Hr.
  apply (in_map inputsOf) in Hr.
  apply (Permutation_in _ Hl) in Hr.
  apply in_map_iff in Hr. destruct Hr as [x [Hx Hin]].
  apply filter_In in Hin. destruct Hin as [_ Hin].
  apply negb_true_iff, has_id_false in Hin.
  apply (f_equal id) in Hx. simpl in Hx. now rewrite <- Hx.
Qed.

(** X27: The chat assistant's 'delete_record' writes nothing when no stored
    record has the date; otherwise it deletes by the id of the first
    record stored under that date, and no record with that id is left. *)
Theorem aiDeleteRecord_by_date (st : Store) (d : string) :
  ((forall r, In r (storedRecords st) -> date r <> d) ->
     aiDeleteRecord localBrowser d st = (Returned tt, st))
  /\ (forall x, find (has_date d) (storedRecords st) = Some x ->
        aiDeleteRecord localBrowser d st
        = deleteRecord localBrowser (id x) st
        /\ Forall (fun r => id r <> id x)
             (storedRecords (snd (aiDeleteRecord localBrowser d st)))).
Proof.
  assert (Hfind : find (has_date d) (sortDesc (storedRecords st))
                  = find (has_date d) (storedRecords st)).
  { apply find_sort_by. apply has_date_not_across_desc. }
  unfold aiDeleteRecord. rewrite listRecords_local, Hfind.
  split.
  - intros Hnone. rewrite find_none_Forall; [reflexivity|].
    apply Forall_forall. intros r Hr.
    destruct (has_date d r) eqn:E; [|reflexivity].
    apply has_date_true in E. exfalso. exact (Hnone r Hr E).
  - intros x Hx. rewrite Hx. split; [reflexivity|].
    apply deleteRecord_no_id_left.
Qed.

Lemma aiDeleteRecord_by_date_witness :
  aiDeleteRecord localBrowser "2024-02-01" scenarioStore
  = (Returned tt, scenarioStore).
Proof.
  apply (proj1 (aiDeleteRecord_by_date scenarioStore "2024-02-01")).
  intros r [<-|[<-|[<-|[]]]]; discriminate.
Defined.

(** *** Editing an entry *)

(** X28: Saving the edit dialog always takes the recalculation path, since
    its patch always carries a date and a total: the stored array ends
    up in date order, and with unique ids the returned record is the old
    one with the form's date, bookings and notes and the recomputed pay,
    its [advanceUsed], [basePay] and anchor flag untouched.  Without a
    record the dialog does nothing. *)
Theorem submitEditEntry_recalculates (st : Store) (rec : DailyRecord)
    (settings : EarningSettings) (data : EntryFormData) :
  submitEditEntry localBrowser None settings data st = (None, st)
  /\ ((exists old, In old (storedRecords st) /\ id old = id rec) ->
      unique_ids (storedRecords st) ->
      exists old r st',
        In old (storedRecords st) /\ id old = id rec
        /\ submitEditEntry localBrowser (Some rec) settings data st
           = (Some (Returned r), st')
        /\ date_sorted (storedRecords st')
        /\ inputsOf r = inputsOf (applyPatch old (editEntryPatch settings data))
        /\ date r = fd_date data
        /\ totalEarnings r
           = s_basePay settings
             + calculateBookingPay (orZero (fd_bookedAppointments data))
                 (Some (s_perBooking settings))
        /\ advanceUsed r = advanceUsed old
        /\ basePay r = basePay old
        /\ isInitialAdvance r = isInitialAdvance old).
Proof.
  split; [reflexivity|].
  intros Hpresent Hids.
  set (patch := editEntryPatch settings data).
  destruct (updateRecord_present st patch Hpresent)
    as (pre & old & post & r & l & Hsplit & Hold & Hupd & Hrid & Hrl
        & Hinputs & _).
  change (is_some (p_advanceUsed patch) || is_some (p_totalEarnings patch)
          || is_some (p_date patch)) with true in Hinputs.
  assert (HoldS : In old (storedRecords st)).
  { apply (proj1 (in_sortDesc old (storedRecords st))).
    rewrite Hsplit. apply in_elt. }
  assert (Hnd : NoDup (map id (pre ++ old :: post))).
  { rewrite <- Hsplit.
    apply (Permutation_NoDup (l := map id (storedRecords st)));
      [|exact Hids].
    apply Permutation_map, Permutation_sym, sort_by_perm. }
  assert (Hr : inputsOf r = inputsOf (applyPatch old patch)).
  { apply (in_map inputsOf) in Hrl. rewrite Hinputs in Hrl.
    apply in_map_iff in Hrl. destruct Hrl as [x [Hx Hin]].
    apply (proj1 (in_sortAsc _ _)) in Hin.
    assert (Hxid : id x = id rec).
    { apply (f_equal id) in Hx. simpl in Hx. congruence. }
    rewrite <- Hx. f_equal.
    apply in_app_iff in Hin. destruct Hin as [Hin|[Hin|Hin]]; auto;
      exfalso.
    - rewrite map_app in Hnd. simpl in Hnd.
      apply NoDup_remove_2 in Hnd. apply Hnd.
      apply in_app_iff. left. rewrite Hold, <- Hxid. now apply in_map.
    - rewrite map_app in Hnd. simpl in Hnd.
      apply NoDup_remove_2 in Hnd. apply Hnd.
      apply in_app_iff. right. rewrite Hold, <- Hxid. now apply in_map. }
  exists old, r, (setRecords l st).
  split; [exact HoldS|]. split; [exact Hold|].
  split; [unfold submitEditEntry; fold patch; now rewrite Hupd|].
  split.
  { rewrite storedRecords_setRecords.
    apply date_sorted_same_dates
      with (l := sortAsc (pre ++ applyPatch old patch :: post)).
    - symmetry. now apply inputs_same_dates.
    - apply sortAsc_date_sorted. }
  split; [exact Hr|].
  repeat split.
  - exact (f_equal date Hr).
  - exact (f_equal totalEarnings Hr).
  - exact (f_equal advanceUsed Hr).
  - exact (f_equal basePay Hr).
  - exact (f_equal isInitialAdvance Hr).
Qed.

Lemma submitEditEntry_recalculates_witness :
  exists r st',
    submitEditEntry localBrowser
      (Some (nth 0 (storedRecords scenarioStore)
               (mkRecord "" "" 0 0 0 0 0 0 0 "" "" "" false)))
      DEFAULT_SETTINGS (mkEntryForm "2024-01-05" 2 "moved") scenarioStore
    = (Some (Returned r), st')
    /\ date r = "2024-01-05" /\ date_sorted (storedRecords st').
Proof.
  destruct (proj2 (submitEditEntry_recalculates scenarioStore
                     (nth 0 (storedRecords scenarioStore)
                        (mkRecord "" "" 0 0 0 0 0 0 0 "" "" "" false))
                     DEFAULT_SETTINGS (mkEntryForm "2024-01-05" 2 "moved")))
    as (old & r & st' & _ & _ & Hs & Hsorted & _ & Hd & _).
  - eexists. split; [left; reflexivity | reflexivity].
  - unfold unique_ids. vm_compute.
    repeat constructor; simpl; intuition discriminate.
  - exists r, st'. repeat split; assumption.
Defined.

End ComponentFacts.

(* ================================================================== *)
(** ** Instances *)

Module Instances.

Import JsArray Calculations Storage LedgerSpec StorageReads LedgerProps.
Import ChatStorage Components Routes.
Import StorageReadsFacts ChatFacts RouteFacts ComponentFacts.
Local Open Scope list_scope.
Local Open Scope Q_scope.
Local Open Scope string_scope.

Lemma getRecordsByDateRange_bounds_witness :
  getRecordsByDateRange localBrowser "2024-01-03" "2024-01-02" scenarioStore
  = Returned [].
Proof.
  destruct (getRecordsByDateRange_bounds scenarioStore
              "2024-01-03" "2024-01-02") as (l & Hl & _ & _ & Hempty).
  rewrite Hl. f_equal. apply Hempty. reflexivity.
Defined.

Lemma addChatMessage_keeps_last_100_witness :
  getChatHistory true
    (snd (addChatMessage true true "m1" "t1" UserRole "hello" Unparsable))
  = (getChatHistory true Unparsable
     ++ [fst (addChatMessage true true "m1" "t1" UserRole "hello"
                Unparsable)])%list.
Proof.
  apply (proj2 (proj2 (proj2 (proj2 (proj2 (proj2
           (addChatMessage_keeps_last_100 Unparsable "m1" "t1" UserRole
              "hello"))))))).
  simpl. lia.
Defined.

Lemma webhook_local_reads_nothing_witness :
  fst (webhookPOST (fun q _ _ => inr q) LocalMode "n" "t"
         {| wb_action := ActionText "ai_query";
            wb_data := Some {| wd_record := earningsOn "2024-01-02" 100;
                               wd_query := "total?";
                               wd_chatHistory := [] |} |} scenarioStore)
  = ok (AiPayload "total?").
Proof.
  apply (proj2 (proj2 (webhook_local_reads_nothing (fun q _ _ => inr q)
                         "n" "t"
                         (Some {| wd_record := earningsOn "2024-01-02" 100;
                                  wd_query := "total?";
                                  wd_chatHistory := [] |}) scenarioStore))
           _ eq_refl).
  discriminate.
Defined.

Lemma submitEarningsSettings_outcome_witness :
  exists st',
    submitEarningsSettings localBrowser "again" "t9" "2024-06-01" false
      (mkSettingsForm 500 "2024-03-01" 250 60) scenarioStore
    = (Returned tt, st')
    /\ storedRecords st' = storedRecords scenarioStore.
Proof.
  destruct (submitEarningsSettings_outcome scenarioStore "again" "t9"
              "2024-06-01" false (mkSettingsForm 500 "2024-03-01" 250 60))
    as (st' & Hs & _ & Hkeep & _).
  exists st'. split; [exact Hs|]. apply Hkeep.
  eexists. split; [right; left; reflexivity | reflexivity].
Defined.

End Instances.
